(** * AppAgent: the news-digest and comment-analysis pipeline

    A shallow embedding of the aggregation-and-classification code of the
    repository (news_digest.py, news_manager.py, news_crawler.py,
    xueqiu_comment_analyzer.py, xueqiu_simple_analyzer.py) together with the
    properties its specification states about it.

    Python values are modelled as follows.
    - [str] is a list of Unicode code points, so that [len], [in] and
      slicing are the list operations.  String literals of the source are
      written as UTF-8 literals and decoded by [u].
    - [int] is [Z].
    - a [dict] read with [d[k]] and [d.get(k, default)] is a [gmap]; a
      missing key under [d[k]] raises [KeyError].
    - an exception is a value of [exn] carried by the [result] monad.
    - [str.lower] is a method of the Python runtime, not of this
      repository: it is the single operation of the class [StrLower].
      Every general theorem holds for all instances;  closed examples use
      [ascii_lower], which agrees with Python on strings made of ASCII
      characters and caseless characters (CJK ideographs, digits,
      punctuation). *)

From Stdlib Require Import ZArith NArith Ascii String List Bool Lia DecimalString.
From Stdlib Require Import Sorting.Sorted Sorting.Permutation.
From stdpp Require Import base list sorting gmap strings.

Local Open Scope Z_scope.

(** ** Python strings *)

Definition char := N.
Definition str := list char.

Definition bytes_of (s : string) : list N :=
  map N_of_ascii (list_ascii_of_string s).

(** UTF-8 decoding of a source literal.  A truncated or invalid sequence ends
    the decoding; no literal below is one. *)
Fixpoint utf8_decode (bs : list N) : str :=
  match bs with
  | [] => []
  | b0 :: r0 =>
    if (b0 <? 128)%N then b0 :: utf8_decode r0
    else if (b0 <? 224)%N then
      match r0 with
      | b1 :: r1 => ((b0 - 192) * 64 + (b1 - 128))%N :: utf8_decode r1
      | _ => []
      end
    else if (b0 <? 240)%N then
      match r0 with
      | b1 :: b2 :: r2 =>
        ((b0 - 224) * 4096 + (b1 - 128) * 64 + (b2 - 128))%N :: utf8_decode r2
      | _ => []
      end
    else
      match r0 with
      | b1 :: b2 :: b3 :: r3 =>
        ((b0 - 240) * 262144 + (b1 - 128) * 4096 + (b2 - 128) * 64
         + (b3 - 128))%N :: utf8_decode r3
      | _ => []
      end
  end.

Definition u (s : string) : str := utf8_decode (bytes_of s).

(** [len(x)] *)
Definition len {A : Type} (l : list A) : Z := Z.of_nat (length l).

(** [s.startswith(p)] *)
Fixpoint startswith (p s : str) : bool :=
  match p, s with
  | [], _ => true
  | a :: p', b :: s' => (a =? b)%N && startswith p' s'
  | _ :: _, [] => false
  end.

(** [needle in hay] on strings: substring containment. *)
Fixpoint str_in (needle hay : str) : bool :=
  startswith needle hay ||
  match hay with
  | [] => false
  | _ :: hay' => str_in needle hay'
  end.

(** [x in l] on a list of strings: membership by [==]. *)
Definition list_in (x : str) (l : list str) : bool :=
  existsb (fun y => bool_decide (x = y)) l.

(** [any(f(x) for x in l)] *)
Definition any {A : Type} (f : A -> bool) (l : list A) : bool := existsb f l.

(** [s * n] *)
Definition str_mul (s : str) (n : nat) : str := concat (replicate n s).

(** [str(n)] for an integer, as interpolated by an f-string. *)
Definition str_of_int (n : Z) : str :=
  u (NilZero.string_of_int (Z.to_int n)).

Definition nl : str := [10%N].

(** [l[:n]]: a negative bound counts from the end. *)
Definition slice_to {A : Type} (l : list A) (n : Z) : list A :=
  if n <? 0 then firstn (Z.to_nat (len l + n)) l else firstn (Z.to_nat n) l.

(** [str.lower], provided by the runtime. *)
Class StrLower := lower : str -> str.

Definition ascii_lower_char (c : char) : char :=
  if ((65 <=? c) && (c <=? 90))%N then (c + 32)%N else c.

Definition ascii_lower : StrLower := map ascii_lower_char.

(** [str.isspace] of a character; the same test decides the class [\s] of
    [re] on [str] patterns and what [str.strip] removes. *)
Definition isspace (c : char) : bool :=
  ((9 <=? c) && (c <=? 13) || (28 <=? c) && (c <=? 32) || (c =? 0x85)
   || (c =? 0xA0) || (c =? 0x1680) || (0x2000 <=? c) && (c <=? 0x200A)
   || (c =? 0x2028) || (c =? 0x2029) || (c =? 0x202F) || (c =? 0x205F)
   || (c =? 0x3000))%N.

Fixpoint lstrip (s : str) : str :=
  match s with
  | c :: s' => if isspace c then lstrip s' else s
  | [] => []
  end.

(** [s.rstrip()] *)
Definition rstrip (s : str) : str := rev (lstrip (rev s)).

(** [s.strip()] *)
Definition strip (s : str) : str := rstrip (lstrip s).

(** ** Exceptions *)

Inductive exn :=
| KeyError (key : string)
| YAMLError (msg : str).

Inductive result (A : Type) :=
| Ok (v : A)
| Raise (e : exn).
Arguments Ok {A} v.
Arguments Raise {A} e.

#[global] Instance result_ret : MRet result := fun A v => Ok v.
#[global] Instance result_bind : MBind result := fun A B f m =>
  match m with
  | Ok v => f v
  | Raise e => Raise e
  end.

(** [d[k]] *)
Definition getitem {V : Type} (d : gmap string V) (k : string) : result V :=
  match d !! k with
  | Some v => Ok v
  | None => Raise (KeyError k)
  end.

(** [d.get(k, dflt)] *)
Definition get {V : Type} (d : gmap string V) (k : string) (dflt : V) : V :=
  default dflt (d !! k).

(** ** Dictionaries whose order shows

    A [dict] keeps its keys in the order of their first insertion, which is
    the order an iteration over it follows. *)
Definition dict (V : Type) : Type := list (str * V).

(** [d.get(k)], [None] being the answer for an absent key. *)
Fixpoint dict_lookup {V : Type} (d : dict V) (k : str) : option V :=
  match d with
  | [] => None
  | (k', v) :: d' => if decide (k' = k) then Some v else dict_lookup d' k
  end.

(** [d[k] = v]: a present key keeps its place. *)
Fixpoint dict_setitem {V : Type} (d : dict V) (k : str) (v : V) : dict V :=
  match d with
  | [] => [(k, v)]
  | (k', v') :: d' =>
    if decide (k' = k) then (k', v) :: d' else (k', v') :: dict_setitem d' k v
  end.

(** ** Statements on a mutable object

    A statement that works on an object of state [S] leaves a state and,
    when it was left by an exception, that exception. *)
Definition outcome (S : Type) : Type := (S * option exn)%type.

(** A body that computes the next state before it changes anything: an
    exception leaves the state as it was. *)
Definition commit {S : Type} (s : S) (r : result S) : outcome S :=
  match r with
  | Ok s' => (s', None)
  | Raise e => (s, Some e)
  end.

(** [for x in l: body]: an exception in the body ends the loop. *)
Fixpoint for_each {S A : Type} (body : A -> S -> outcome S) (l : list A)
    (s : S) : outcome S :=
  match l with
  | [] => (s, None)
  | x :: l' =>
    match body x s with
    | (s', None) => for_each body l' s'
    | failed => failed
    end
  end.

(** [sorted(l, key=key, reverse=reverse)].  The builtin is a stable sort;
    with [reverse=True] it reverses the list, sorts it and reverses the
    outcome, which keeps equal keys in their original order. *)
Section Sorted.
Context {A : Type} (key : A -> Z).

Fixpoint insert_sorted (x : A) (l : list A) : list A :=
  match l with
  | [] => [x]
  | y :: l' => if key x <=? key y then x :: y :: l' else y :: insert_sorted x l'
  end.

Fixpoint sort_ascending (l : list A) : list A :=
  match l with
  | [] => []
  | x :: l' => insert_sorted x (sort_ascending l')
  end.

Definition sorted (reverse : bool) (l : list A) : list A :=
  if reverse then rev (sort_ascending (rev l)) else sort_ascending l.

End Sorted.

(** [Counter(l)]: the number of occurrences of each element, the elements
    in the order of their first occurrence. *)
Definition Counter (l : list str) : dict Z :=
  fold_left (fun counter x =>
               dict_setitem counter x (default 0 (dict_lookup counter x) + 1))
            l [].

(** [counter.most_common(n)]: the [n] largest counts, largest first, equal
    counts in the order of first occurrence. *)
Definition most_common (counter : dict Z) (n : Z) : list (str * Z) :=
  slice_to (sorted snd true counter) n.

(** [sep.join(l)] *)
Fixpoint join (sep : str) (l : list str) : str :=
  match l with
  | [] => []
  | [x] => x
  | x :: l' => x ++ sep ++ join sep l'
  end.

(** ** The fragment of [re] that [clean_text] uses

    A pattern is matched by backtracking, alternatives left to right and
    repetitions greedy, as [re] does.  [run r s k] matches [r] at the start of
    [s] and hands what is left to the continuation [k]; a [None] from [k]
    makes the matcher backtrack. *)
Module re.

Inductive regex :=
| Lit (w : str)
| Chars (p : char -> bool)
| Seq (r1 r2 : regex)
| Alt (r1 r2 : regex)
| Opt (r : regex)
| Plus (r : regex).

Fixpoint strip_prefix (w s : str) : option str :=
  match w, s with
  | [], _ => Some s
  | a :: w', b :: s' => if (a =? b)%N then strip_prefix w' s' else None
  | _ :: _, [] => None
  end.

(** One or more rounds of [body], greedy: after a round that consumed
    something another round is tried first, and the continuation [k] only
    when that fails.  [bound] bounds the number of rounds; the length of the
    input is enough, since a round that consumes nothing ends the
    repetition. *)
Fixpoint rounds (body : str -> (str -> option str) -> option str)
    (k : str -> option str) (bound : nat) (s : str) : option str :=
  body s (fun s' =>
    match bound with
    | O => k s'
    | S bound' =>
      if (length s' <? length s)%nat then
        match rounds body k bound' s' with
        | Some out => Some out
        | None => k s'
        end
      else k s'
    end).

Fixpoint run (r : regex) (s : str) (k : str -> option str) : option str :=
  match r with
  | Lit w =>
    match strip_prefix w s with
    | Some s' => k s'
    | None => None
    end
  | Chars p =>
    match s with
    | c :: s' => if p c then k s' else None
    | [] => None
    end
  | Seq r1 r2 => run r1 s (fun s' => run r2 s' k)
  | Alt r1 r2 =>
    match run r1 s k with
    | Some out => Some out
    | None => run r2 s k
    end
  | Opt r1 =>
    match run r1 s k with
    | Some out => Some out
    | None => k s
    end
  | Plus r1 => rounds (run r1) k (length s) s
  end.

(** [pattern.match(s)]: what follows the match, when there is one. *)
Definition match_prefix (r : regex) (s : str) : option str := run r s Some.

(** [re.sub(r, repl, s)] for a pattern that matches no empty string and a
    replacement without group references: scanning from the left, a match
    is replaced by [repl] and the scan resumes after it; [skip] counts the
    characters of the current match still to pass over. *)
Fixpoint sub_from (r : regex) (repl : str) (skip : nat) (s : str) : str :=
  match s with
  | [] => []
  | c :: s' =>
    match skip with
    | S n => sub_from r repl n s'
    | O =>
      match match_prefix r s with
      | Some rest =>
        if (length rest <? length s)%nat
        then repl ++ sub_from r repl (length s - length rest - 1) s'
        else c :: sub_from r repl 0 s'
      | None => c :: sub_from r repl 0 s'
      end
    end
  end.

Definition sub (r : regex) (repl s : str) : str := sub_from r repl 0 s.

(** [re.findall(r, s)] for a pattern without groups that matches no empty
    string: scanning from the left, the text of a match is listed and the
    scan resumes after it. *)
Fixpoint findall_from (r : regex) (skip : nat) (s : str) : list str :=
  match s with
  | [] => []
  | c :: s' =>
    match skip with
    | S n => findall_from r n s'
    | O =>
      match match_prefix r s with
      | Some rest =>
        if (length rest <? length s)%nat
        then firstn (length s - length rest) s
             :: findall_from r (length s - length rest - 1) s'
        else findall_from r 0 s'
      | None => findall_from r 0 s'
      end
    end
  end.

Definition findall (r : regex) (s : str) : list str := findall_from r 0 s.

(** Character classes. *)
Definition ch (s : string) : char := hd 0%N (u s).
Definition range (lo hi : char) (c : char) : bool := ((lo <=? c) && (c <=? hi))%N.
Definition one_of (s : string) (c : char) : bool := existsb (N.eqb c) (u s).
Definition lit (s : string) : regex := Lit (u s).

End re.

(** ** news_digest.py *)
Module news_digest.

Inductive NewsCategory :=
| POLITICS | ECONOMY | SOCIETY | TECHNOLOGY | CULTURE
| SPORTS | INTERNATIONAL | HEALTH | EDUCATION | ENVIRONMENT.

#[global] Instance NewsCategory_eq_dec : EqDecision NewsCategory.
Proof. solve_decision. Defined.

(** [category.value] *)
Definition value (c : NewsCategory) : str :=
  match c with
  | POLITICS => u "政治"
  | ECONOMY => u "经济"
  | SOCIETY => u "社会"
  | TECHNOLOGY => u "科技"
  | CULTURE => u "文化"
  | SPORTS => u "体育"
  | INTERNATIONAL => u "国际"
  | HEALTH => u "健康"
  | EDUCATION => u "教育"
  | ENVIRONMENT => u "环境"
  end.

(** [for category in NewsCategory]: the members in definition order. *)
Definition members : list NewsCategory :=
  [POLITICS; ECONOMY; SOCIETY; TECHNOLOGY; CULTURE;
   SPORTS; INTERNATIONAL; HEALTH; EDUCATION; ENVIRONMENT].

Record NewsItem := {
  title : str;
  summary : str;
  category : NewsCategory;
  source : str;
  url : str;
  publish_time : str;
  importance : Z
}.

(** The state of a [NewsDigest] object. *)
Record NewsDigest := {
  news_items : list NewsItem;
  today : str
}.

(** [NewsDigest()], [now] being the formatted date of the call. *)
Definition init (now : str) : NewsDigest :=
  {| news_items := []; today := now |}.

(** The three keyword arguments with a default are options: [None] is an
    omitted argument. *)
Definition add_news (self : NewsDigest) (title summary : str)
    (category : NewsCategory) (source : str)
    (url publish_time : option str) (importance : option Z) : NewsDigest :=
  let news_item :=
    {| title := title; summary := summary; category := category;
       source := source; url := default [] url;
       publish_time := default [] publish_time;
       importance := default 1 importance |} in
  {| news_items := news_items self ++ [news_item]; today := today self |}.

Definition get_news_by_category (self : NewsDigest) (c : NewsCategory)
    : list NewsItem :=
  filter (fun item => category item = c) (news_items self).

Definition get_top_news (self : NewsDigest) (limit : Z) : list NewsItem :=
  let sorted_news := sorted importance true (news_items self) in
  slice_to sorted_news limit.

(** The three lines of one entry; [i] is the index [enumerate(..., 1)]
    gives it. *)
Definition entry (i : Z) (news : NewsItem) : str :=
  str_of_int i ++ u ". " ++ title news ++ nl
  ++ u "   " ++ summary news ++ nl
  ++ u "   来源：" ++ source news ++ nl ++ nl.

Fixpoint entries (i : Z) (l : list NewsItem) : str :=
  match l with
  | [] => []
  | news :: l' => entry i news ++ entries (i + 1) l'
  end.

Definition category_section (self : NewsDigest) (c : NewsCategory) : str :=
  let category_news := get_news_by_category self c in
  match category_news with
  | [] => []
  | _ => u "📋 " ++ value c ++ nl ++ str_mul (u "-") 20 ++ nl
         ++ entries 1 category_news
  end.

(** [now] is the formatted time of the call. *)
Definition generate_digest (self : NewsDigest) (now : str) : str :=
  match news_items self with
  | [] => u "今日暂无新闻"
  | _ =>
    let digest := u "📰 中国今日新闻早报 - " ++ today self ++ nl in
    let digest := digest ++ str_mul (u "=") 50 ++ nl ++ nl in
    let top_news := get_top_news self 3 in
    let digest :=
      match top_news with
      | [] => digest
      | _ => digest ++ u "🔥 头条新闻" ++ nl ++ str_mul (u "-") 20 ++ nl
             ++ entries 1 top_news
      end in
    let digest :=
      fold_left (fun digest c => digest ++ category_section self c)
                members digest in
    let digest := digest ++ str_mul (u "=") 50 ++ nl in
    let digest := digest ++ u "📊 今日共收集 "
                  ++ str_of_int (len (news_items self)) ++ u " 条新闻" ++ nl in
    digest ++ u "⏰ 生成时间：" ++ now
  end.

End news_digest.

(** ** The configuration document

    What [yaml.safe_load] returns is an arbitrary document. *)
#[local] Unset Elimination Schemes.
Inductive pyvalue :=
| PNone
| PBool (b : bool)
| PInt (n : Z)
| PStr (s : str)
| PList (l : list pyvalue)
| PDict (items : list (string * pyvalue)).
#[local] Set Elimination Schemes.

(** What [open(path)] followed by [yaml.safe_load(f)] does is decided by the
    environment: the file is absent, or its text is not a YAML document, or
    it parses to a document. *)
Inductive config_source :=
| Missing
| Malformed (problem : str)
| Document (doc : pyvalue).

Inductive load_error :=
| FileNotFoundError
| OtherError (e : exn).

Definition open_and_safe_load (src : config_source) : load_error + pyvalue :=
  match src with
  | Missing => inl FileNotFoundError
  | Malformed problem => inl (OtherError (YAMLError problem))
  | Document doc => inr doc
  end.

(** [try: body / except FileNotFoundError: handler]: every other exception
    leaves the function. *)
Definition try_except_FileNotFoundError (body : load_error + pyvalue)
    (handler : pyvalue) : result pyvalue :=
  match body with
  | inr doc => Ok doc
  | inl FileNotFoundError => Ok handler
  | inl (OtherError e) => Raise e
  end.

(** ** news_digest.py: the export

    [export_json] hands [data] to [json.dump]; the model is that object.
    [item_dict] is [asdict(item)] after the category has been replaced by
    its label; the keys are in the order of the fields. *)
Module news_digest_export.
Import news_digest.

Definition item_dict (item : NewsItem) : pyvalue :=
  PDict [("title", PStr (title item));
         ("summary", PStr (summary item));
         ("category", PStr (value (category item)));
         ("source", PStr (source item));
         ("url", PStr (url item));
         ("publish_time", PStr (publish_time item));
         ("importance", PInt (importance item))].

Definition export_json (self : NewsDigest) : pyvalue :=
  let news_items_data := item_dict <$> news_items self in
  PDict [("date", PStr (today self));
         ("total_news", PInt (len (news_items self)));
         ("news_items", PList news_items_data)].

End news_digest_export.

(** ** news_manager.py *)
Module news_manager.
Import news_digest.

(** The sections of the configuration that the pipeline reads, each key
    being optional as in [section.get(key, default)]. *)
Record system_config := {
  sys_auto_categorize : option bool;
  sys_auto_importance : option bool
}.

Record category_config := {
  cat_keywords : option (list str)
}.

Record importance_config := {
  imp_critical_keywords : option (list str);
  imp_authoritative_sources : option (list str);
  imp_important_keywords : option (list str);
  imp_title_length_threshold : option Z
}.

Record filters_config := {
  flt_title_blacklist : option (list str);
  flt_source_blacklist : option (list str);
  flt_min_title_length : option Z;
  flt_max_title_length : option Z;
  flt_min_summary_length : option Z;
  flt_max_summary_length : option Z
}.

(** [categories] keeps the order of the document, which is the order
    [categories_config.items()] visits. *)
Record config := {
  cfg_system : option system_config;
  cfg_categories : option (list (str * category_config));
  cfg_importance : option importance_config;
  cfg_filters : option filters_config
}.

Definition no_system : system_config :=
  {| sys_auto_categorize := None; sys_auto_importance := None |}.
Definition no_importance : importance_config :=
  {| imp_critical_keywords := None; imp_authoritative_sources := None;
     imp_important_keywords := None; imp_title_length_threshold := None |}.
Definition no_filters : filters_config :=
  {| flt_title_blacklist := None; flt_source_blacklist := None;
     flt_min_title_length := None; flt_max_title_length := None;
     flt_min_summary_length := None; flt_max_summary_length := None |}.

Definition get_default_config : pyvalue :=
  PDict [
    ("system", PDict [
       ("fetch_interval", PInt 3600);
       ("max_news_count", PInt 50);
       ("output_format", PList [PStr (u "txt"); PStr (u "json")]);
       ("auto_categorize", PBool true);
       ("auto_importance", PBool true)]);
    ("news_sources", PDict [
       ("rss", PDict [
          ("people_politics", PDict [
             ("name", PStr (u "人民网政治"));
             ("url", PStr (u "http://www.people.com.cn/rss/politics.xml"));
             ("enabled", PBool true);
             ("category", PStr (u "政治"))])])])
  ].

(** The default configuration as the pipeline reads it: it has no
    [categories], [importance] or [filters] section. *)
Definition default_config : config :=
  {| cfg_system := Some {| sys_auto_categorize := Some true;
                           sys_auto_importance := Some true |};
     cfg_categories := None; cfg_importance := None; cfg_filters := None |}.

Definition load_config (config_file : config_source) : result pyvalue :=
  try_except_FileNotFoundError (open_and_safe_load config_file)
    get_default_config.

(** [any(keyword in news['title'] for keyword in title_blacklist)]: the
    subscript is evaluated once per keyword, so not at all for an empty
    list. *)
Fixpoint any_in_title (news : gmap string str) (title_blacklist : list str)
    : result bool :=
  match title_blacklist with
  | [] => Ok false
  | keyword :: rest =>
    t ← getitem news "title";
    if str_in keyword t then Ok true else any_in_title news rest
  end.

Definition filter_news (self : config) (news : gmap string str)
    : result bool :=
  let filters := default no_filters (cfg_filters self) in
  let title_blacklist := default [] (flt_title_blacklist filters) in
  blacklisted ← any_in_title news title_blacklist;
  if (blacklisted : bool) then Ok false else
  let source_blacklist := default [] (flt_source_blacklist filters) in
  if any (fun keyword => str_in keyword (get news "source" []))
         source_blacklist
  then Ok false else
  let min_length := default 5 (flt_min_title_length filters) in
  let max_length := default 100 (flt_max_title_length filters) in
  t ← getitem news "title";
  if negb ((min_length <=? len t) && (len t <=? max_length))
  then Ok false else
  let min_summary_length := default 10 (flt_min_summary_length filters) in
  let max_summary_length := default 500 (flt_max_summary_length filters) in
  s ← getitem news "summary";
  if negb ((min_summary_length <=? len s) && (len s <=? max_summary_length))
  then Ok false else
  Ok true.

Section WithLower.
Context `{StrLower}.

(** The inner loop looks the configured name up among the labels of the
    enumeration; a name that is no label leaves the outer loop running. *)
Fixpoint categorize_loop (text : str)
    (items : list (str * category_config)) : NewsCategory :=
  match items with
  | [] => SOCIETY
  | (category_name, config) :: rest =>
    let keywords := default [] (cat_keywords config) in
    if any (fun keyword => str_in keyword text) keywords then
      match find (fun category_enum =>
                    bool_decide (value category_enum = category_name))
                 members with
      | Some category_enum => category_enum
      | None => categorize_loop text rest
      end
    else categorize_loop text rest
  end.

Definition auto_categorize (self : config) (title summary : str)
    : NewsCategory :=
  if negb (default true
             (sys_auto_categorize (default no_system (cfg_system self))))
  then SOCIETY else
  let categories_config := default [] (cfg_categories self) in
  let text := lower (title ++ u " " ++ summary) in
  categorize_loop text categories_config.

Definition determine_importance (self : config) (title summary source : str)
    : Z :=
  if negb (default true
             (sys_auto_importance (default no_system (cfg_system self))))
  then 3 else
  let importance_config := default no_importance (cfg_importance self) in
  let text := lower (title ++ u " " ++ summary) in
  let critical_keywords :=
    default [] (imp_critical_keywords importance_config) in
  if any (fun keyword => str_in keyword text) critical_keywords then 5 else
  let authoritative_sources :=
    default [] (imp_authoritative_sources importance_config) in
  if any (fun auth_source => str_in source auth_source) authoritative_sources
  then 4 else
  let important_keywords :=
    default [] (imp_important_keywords importance_config) in
  if any (fun keyword => str_in keyword text) important_keywords then 3 else
  let title_length_threshold :=
    default 20 (imp_title_length_threshold importance_config) in
  if title_length_threshold <? len title then 3 else
  2.

End WithLower.

(** *** The pipeline *)
Section Pipeline.
Context `{StrLower}.

(** The body of the loop of [process_news_list]; the digest of the manager
    is the state, changed by the call of [add_news] that ends the body.
    Every subscript [news[...]] stands where the source evaluates it. *)
Definition process_news (self : config) (source_name : str)
    (news : gmap string str) (digest : NewsDigest) : result NewsDigest :=
  accepted ← filter_news self news;
  if negb accepted then Ok digest else
  title1 ← getitem news "title";
  summary1 ← getitem news "summary";
  let category := auto_categorize self title1 summary1 in
  title2 ← getitem news "title";
  summary2 ← getitem news "summary";
  let importance := determine_importance self title2 summary2 source_name in
  title3 ← getitem news "title";
  summary3 ← getitem news "summary";
  Ok (add_news digest title3 summary3 category source_name
        (Some (get news "url" [])) (Some (get news "publish_time" []))
        (Some importance)).

Definition process_news_list (self : config) (digest : NewsDigest)
    (news_list : list (gmap string str)) (source_name : str)
    : outcome NewsDigest :=
  for_each (fun news digest =>
              commit digest (process_news self source_name news digest))
           news_list digest.

End Pipeline.

(** *** The data of the HTML template *)

(** The dictionary built for one item. *)
Record html_item := {
  row_title : str;
  row_summary : str;
  row_source : str;
  row_publish_time : str;
  row_importance : Z
}.

Definition html_item_of (item : NewsItem) : html_item :=
  {| row_title := title item; row_summary := summary item;
     row_source := source item; row_publish_time := publish_time item;
     row_importance := importance item |}.

(** The dictionary [prepare_html_data] returns, one field per key. *)
Record html_data := {
  html_title : str;
  html_date : str;
  html_total_news : Z;
  html_categories_count : Z;
  html_top_news_count : Z;
  html_category_stats : dict Z;
  html_top_news : list html_item;
  html_categorized_news : dict (list html_item);
  html_generation_time : str
}.

(** [now] is the formatted time of the call.  In the second loop
    [categorized_news[category].append(...)] changes the list stored under
    the key, which the test before it has made present. *)
Definition prepare_html_data (digest : NewsDigest) (now : str) : html_data :=
  let category_stats :=
    fold_left (fun (category_stats : dict Z) item =>
                 let category := value (category item) in
                 dict_setitem category_stats category
                   (default 0 (dict_lookup category_stats category) + 1))
              (news_items digest) [] in
  let categorized_news :=
    fold_left (fun (categorized_news : dict (list html_item)) item =>
                 let category := value (category item) in
                 let categorized_news :=
                   match dict_lookup categorized_news category with
                   | None => dict_setitem categorized_news category []
                   | Some _ => categorized_news
                   end in
                 dict_setitem categorized_news category
                   (default [] (dict_lookup categorized_news category)
                    ++ [html_item_of item]))
              (news_items digest) [] in
  {| html_title := u "中国今日新闻早报 - " ++ today digest;
     html_date := today digest;
     html_total_news := len (news_items digest);
     html_categories_count := len category_stats;
     html_top_news_count := len (get_top_news digest 3);
     html_category_stats := category_stats;
     html_top_news := html_item_of <$> get_top_news digest 3;
     html_categorized_news := categorized_news;
     html_generation_time := now |}.

End news_manager.

(** ** news_crawler.py *)
Module news_crawler.
Import news_digest.

Definition politics_keywords : list str :=
  map u ["国务院"; "政治局"; "中央"; "政府"; "政策"; "法规"; "会议"; "领导人";
         "习近平"; "李克强"].
Definition economy_keywords : list str :=
  map u ["经济"; "金融"; "股市"; "银行"; "央行"; "GDP"; "投资"; "贸易"; "出口";
         "进口"; "企业"].
Definition tech_keywords : list str :=
  map u ["科技"; "技术"; "互联网"; "AI"; "人工智能"; "5G"; "芯片"; "创新";
         "数字化"].
Definition education_keywords : list str :=
  map u ["教育"; "学校"; "学生"; "教师"; "考试"; "招生"; "大学"; "培训"].
Definition sports_keywords : list str :=
  map u ["体育"; "足球"; "篮球"; "奥运会"; "比赛"; "运动员"; "冠军"; "赛事"].
Definition health_keywords : list str :=
  map u ["健康"; "医疗"; "医院"; "疾病"; "疫苗"; "药品"; "治疗"; "医生"].
Definition environment_keywords : list str :=
  map u ["环境"; "环保"; "污染"; "气候"; "生态"; "绿色"; "可持续发展"].
Definition culture_keywords : list str :=
  map u ["文化"; "艺术"; "电影"; "音乐"; "文学"; "历史"; "传统"; "博物馆"].
Definition international_keywords : list str :=
  map u ["国际"; "外交"; "美国"; "日本"; "欧洲"; "联合国"; "全球"; "世界"].

Definition important_keywords : list str :=
  map u ["紧急"; "重大"; "重要"; "突发"; "首次"; "突破"; "创新"; "政策"; "法规"].
Definition authoritative_sources : list str :=
  map u ["新华社"; "人民日报"; "央视"; "中央"; "国务院"].

Section WithLower.
Context `{StrLower}.

Definition categorize_news (title summary : str) : NewsCategory :=
  let text := lower (title ++ u " " ++ summary) in
  if any (fun keyword => str_in keyword text) politics_keywords
  then POLITICS else
  if any (fun keyword => str_in keyword text) economy_keywords
  then ECONOMY else
  if any (fun keyword => str_in keyword text) tech_keywords
  then TECHNOLOGY else
  if any (fun keyword => str_in keyword text) education_keywords
  then EDUCATION else
  if any (fun keyword => str_in keyword text) sports_keywords
  then SPORTS else
  if any (fun keyword => str_in keyword text) health_keywords
  then HEALTH else
  if any (fun keyword => str_in keyword text) environment_keywords
  then ENVIRONMENT else
  if any (fun keyword => str_in keyword text) culture_keywords
  then CULTURE else
  if any (fun keyword => str_in keyword text) international_keywords
  then INTERNATIONAL else
  SOCIETY.

(** In the second test the generator's own variable [source] hides the
    parameter: each name of the list is looked up in the list itself. *)
Definition determine_importance (title summary source : str) : Z :=
  let text := lower (title ++ u " " ++ summary) in
  if any (fun keyword => str_in keyword text) important_keywords then 5 else
  if any (fun source => list_in source authoritative_sources)
         authoritative_sources
  then 4 else
  if (20 <? len title) || str_in (u "发布") text || str_in (u "公布") text
  then 3 else
  2.

End WithLower.

(** *** The aggregator *)

(** [self.news_sources]: the feeds by name, and the pages by name with
    their address and selectors. *)
Definition rss_sources : list (str * str) :=
  [(u "people", u "http://www.people.com.cn/rss/politics.xml");
   (u "xinhua", u "http://www.xinhuanet.com/politics/news_politics.xml");
   (u "cctv",
    u "http://news.cctv.com/2019/07/gaiban/cmsdatainterface/page/news_1.jsonp")].

Definition web_sources : list (str * (str * list (str * str))) :=
  [(u "sina",
    (u "https://news.sina.com.cn/",
     [(u "news_container", u ".news-item"); (u "title", u "h2 a");
      (u "summary", u ".summary"); (u "url", u "h2 a");
      (u "time", u ".time")]))].

Section Aggregator.
Context `{StrLower}.

(** What the crawler fetches is decided by the network: [get_rss_news] and
    [get_web_news] are the lists it returns for an address. *)
Variable get_rss_news : str -> list (gmap string str).
Variable get_web_news : str -> list (str * str) -> list (gmap string str).

(** The body of both inner loops of [aggregate_news]. *)
Definition aggregate_record (news : gmap string str) (digest : NewsDigest)
    : result NewsDigest :=
  title1 ← getitem news "title";
  summary1 ← getitem news "summary";
  let category := categorize_news title1 summary1 in
  title2 ← getitem news "title";
  summary2 ← getitem news "summary";
  source2 ← getitem news "source";
  let importance := determine_importance title2 summary2 source2 in
  title3 ← getitem news "title";
  summary3 ← getitem news "summary";
  source3 ← getitem news "source";
  Ok (add_news digest title3 summary3 category source3
        (Some (get news "url" [])) (Some (get news "publish_time" []))
        (Some importance)).

Definition aggregate_list (news_list : list (gmap string str))
    (digest : NewsDigest) : outcome NewsDigest :=
  for_each (fun news digest => commit digest (aggregate_record news digest))
           news_list digest.

Definition aggregate_news (digest : NewsDigest) : outcome NewsDigest :=
  match for_each (fun '(source_name, rss_url) digest =>
                    let news_list := get_rss_news rss_url in
                    aggregate_list news_list digest)
                 rss_sources digest with
  | (digest, None) =>
    for_each (fun '(source_name, (url, selectors)) digest =>
                let news_list := get_web_news url selectors in
                aggregate_list news_list digest)
             web_sources digest
  | failed => failed
  end.

End Aggregator.

End news_crawler.

(** ** xueqiu_comment_analyzer.py *)
Module xueqiu_comment_analyzer.
Import re.

Definition _load_config (config_path : config_source) : result pyvalue :=
  try_except_FileNotFoundError (open_and_safe_load config_path)
    (PDict [("api_key", PStr []); ("max_comments", PInt 1000);
            ("timeout", PInt 30); ("retry_times", PInt 3)]).

(** [<[^>]+>] *)
Definition html_tag : regex :=
  Seq (lit "<") (Seq (Plus (Chars (fun c => negb (one_of ">" c)))) (lit ">")).

(** [http[s]?://(?:[a-zA-Z]|[0-9]|[$-_@.&+]|[!*\\(\\),]|(?:%[0-9a-fA-F][0-9a-fA-F]))+] *)
Definition url_pattern : regex :=
  let hex c := range (ch "0") (ch "9") c || range (ch "a") (ch "f") c
               || range (ch "A") (ch "F") c in
  Seq (lit "http") (Seq (Opt (Chars (one_of "s"))) (Seq (lit "://")
    (Plus
      (Alt (Chars (fun c => range (ch "a") (ch "z") c
                            || range (ch "A") (ch "Z") c))
      (Alt (Chars (range (ch "0") (ch "9")))
      (Alt (Chars (fun c => range (ch "$") (ch "_") c || one_of "@.&+" c))
      (Alt (Chars (one_of "!*\(\),"))
           (Seq (lit "%") (Seq (Chars hex) (Chars hex)))))))))).

(** [[^一-龥a-zA-Z0-9\s]] *)
Definition special_char : regex :=
  Chars (fun c => negb (range 0x4e00%N 0x9fa5%N c
                        || range (ch "a") (ch "z") c
                        || range (ch "A") (ch "Z") c
                        || range (ch "0") (ch "9") c
                        || isspace c)).

(** [\s+] *)
Definition whitespace_run : regex := Plus (Chars isspace).

(** [text] is [None] for Python's [None]. *)
Definition clean_text (text : option str) : str :=
  match text with
  | None | Some [] => []
  | Some text =>
    let text := sub html_tag [] text in
    let text := sub url_pattern [] text in
    let text := sub special_char [] text in
    let text := strip (sub whitespace_run (u " ") text) in
    text
  end.

(** *** The analysis by the language model *)

(** How the [try] block of [analyze_comments_with_ai] ends is decided by the
    service and by the configuration that holds its key: an answer with
    status 200 and its text, an answer with another status and its
    message, or an exception and its description. *)
Inductive ai_outcome :=
| Answered (text : str)
| Refused (message : str)
| Failed (description : str).

(** The dictionary returned: an error, or the analysis with its two
    counts. *)
Inductive ai_analysis :=
| AnalysisError (error : str)
| Analysis (analysis : str) (comment_count valid_comment_count : Z).

(** The f-string that becomes the prompt. *)
Definition prompt (combined_text : str) : str :=
  nl ++ u "请分析以下雪球用户的评论内容，总结出主要关注点和情感倾向：" ++ nl
  ++ nl
  ++ u "评论内容：" ++ nl
  ++ combined_text ++ nl
  ++ nl
  ++ u "请从以下几个方面进行分析：" ++ nl
  ++ u "1. 主要关注的话题和股票" ++ nl
  ++ u "2. 市场情绪（乐观/悲观/中性）" ++ nl
  ++ u "3. 热门讨论的行业板块" ++ nl
  ++ u "4. 用户关注的具体问题" ++ nl
  ++ u "5. 投资策略和观点" ++ nl
  ++ nl
  ++ u "请用中文回答，格式要清晰。" ++ nl.

Section Analysis.

(** [Generation.call] on a prompt, with what follows it in the [try]
    block. *)
Variable Generation_call : str -> ai_outcome.

(** The loop that fills [comment_texts]. *)
Fixpoint comment_texts_of (comments : list (gmap string (option str)))
    : result (list str) :=
  match comments with
  | [] => Ok []
  | comment :: rest =>
    text ← getitem comment "text";
    let cleaned_text := clean_text text in
    comment_texts ← comment_texts_of rest;
    if match cleaned_text with [] => false | _ => true end
       && (5 <? len cleaned_text)
    then Ok (cleaned_text :: comment_texts)
    else Ok comment_texts
  end.

Definition analyze_comments_with_ai
    (comments : list (gmap string (option str))) : result ai_analysis :=
  match comments with
  | [] => Ok (AnalysisError (u "没有评论数据"))
  | _ =>
    comment_texts ← comment_texts_of comments;
    match comment_texts with
    | [] => Ok (AnalysisError (u "没有有效的评论内容"))
    | _ =>
      let combined_text := join nl (slice_to comment_texts 50) in
      match Generation_call (prompt combined_text) with
      | Answered text =>
        Ok (Analysis text (len comments) (len comment_texts))
      | Refused message => Ok (AnalysisError (u "AI分析失败: " ++ message))
      | Failed description =>
        Ok (AnalysisError (u "AI分析异常: " ++ description))
      end
    end
  end.

End Analysis.

End xueqiu_comment_analyzer.

(** ** xueqiu_simple_analyzer.py *)
Module xueqiu_simple_analyzer.
Import re.

Definition _load_config (config_path : config_source) : result pyvalue :=
  try_except_FileNotFoundError (open_and_safe_load config_path)
    (PDict [("max_comments", PInt 1000); ("timeout", PInt 30);
            ("retry_times", PInt 3); ("analysis_days", PInt 7);
            ("max_topics", PInt 10); ("max_comments_per_topic", PInt 50)]).

(** The four patterns are those of xueqiu_comment_analyzer.py, character
    for character. *)
Definition clean_text (text : option str) : str :=
  match text with
  | None | Some [] => []
  | Some text =>
    let text := sub xueqiu_comment_analyzer.html_tag [] text in
    let text := sub xueqiu_comment_analyzer.url_pattern [] text in
    let text := sub xueqiu_comment_analyzer.special_char [] text in
    let text :=
      strip (sub xueqiu_comment_analyzer.whitespace_run (u " ") text) in
    text
  end.

Definition positive_words : list str :=
  map u ["涨"; "好"; "看好"; "买入"; "持有"; "乐观"; "机会"; "利好"; "突破"; "强势"].
Definition negative_words : list str :=
  map u ["跌"; "不好"; "看空"; "卖出"; "悲观"; "风险"; "利空"; "破位"; "弱势"; "割肉"].

Section WithLower.
Context `{StrLower}.

(** [sum(1 for word in words if word in text_lower)] *)
Definition count_present (words : list str) (text_lower : str) : Z :=
  len (List.filter (fun word => str_in word text_lower) words).

Definition analyze_sentiment (text : str) : str :=
  let text_lower := lower text in
  let positive_count := count_present positive_words text_lower in
  let negative_count := count_present negative_words text_lower in
  if negative_count <? positive_count then u "乐观"
  else if positive_count <? negative_count then u "悲观"
  else u "中性".

End WithLower.

(** *** Keywords and statistics *)

(** A comment as [get_comments] builds it.  Of its fields only [text] is
    read here; it is a string, or [None] for a null of the service. *)
Definition comment : Type := gmap string (option str).

(** The truth value of a text in a condition. *)
Definition truthy (text : option str) : bool :=
  match text with
  | Some (_ :: _) => true
  | _ => false
  end.

(** [[0-9]{6}] *)
Definition stock_code : regex :=
  let digit := Chars (range (ch "0") (ch "9")) in
  Seq digit (Seq digit (Seq digit (Seq digit (Seq digit digit)))).

Definition industry_words : list (str * list str) :=
  [(u "科技", map u ["科技"; "芯片"; "AI"; "人工智能"; "互联网"; "软件"]);
   (u "医药", map u ["医药"; "生物"; "疫苗"; "医院"; "药品"]);
   (u "新能源",
    map u ["新能源"; "光伏"; "风电"; "储能"; "新能源汽车"; "电池"]);
   (u "消费", map u ["消费"; "白酒"; "食品"; "饮料"; "零售"]);
   (u "金融", map u ["金融"; "银行"; "保险"; "券商"; "基金"]);
   (u "地产", map u ["地产"; "房地产"; "房子"; "房价"]);
   (u "军工", map u ["军工"; "国防"; "军事"; "武器"]);
   (u "农业", map u ["农业"; "粮食"; "种植"; "养殖"])].

(** The dictionary [extract_keywords] returns, one field per key. *)
Record keyword_data := {
  top_stocks : list (str * Z);
  industry_mentions : dict Z;
  sentiment_distribution : dict Z;
  total_stock_mentions : Z
}.

Section Keywords.
Context `{StrLower}.

(** [[self.clean_text(c['text']) for c in comments if c['text']]] *)
Fixpoint cleaned_texts (comments : list comment) : result (list str) :=
  match comments with
  | [] => Ok []
  | c :: rest =>
    condition ← getitem c "text";
    if truthy condition then
      text ← getitem c "text";
      texts ← cleaned_texts rest;
      Ok (clean_text text :: texts)
    else cleaned_texts rest
  end.

(** The loop that fills [sentiments]; the text it hands to
    [analyze_sentiment] has passed the test, so it is a string. *)
Fixpoint sentiments_of (comments : list comment) : result (list str) :=
  match comments with
  | [] => Ok []
  | comment :: rest =>
    condition ← getitem comment "text";
    if truthy condition then
      text ← getitem comment "text";
      let sentiment := analyze_sentiment (default [] text) in
      sentiments ← sentiments_of rest;
      Ok (sentiment :: sentiments)
    else sentiments_of rest
  end.

Definition extract_keywords (comments : list comment)
    : result keyword_data :=
  texts ← cleaned_texts comments;
  let all_text := join (u " ") texts in
  let stock_codes := findall stock_code all_text in
  let stock_counter := Counter stock_codes in
  let industry_stats :=
    fold_left (fun (industry_stats : dict Z) '(industry, keywords) =>
                 let count := count_present keywords all_text in
                 if 0 <? count then dict_setitem industry_stats industry count
                 else industry_stats)
              industry_words [] in
  sentiments ← sentiments_of comments;
  let sentiment_counter := Counter sentiments in
  Ok {| top_stocks := most_common stock_counter 10;
        industry_mentions := industry_stats;
        sentiment_distribution := sentiment_counter;
        total_stock_mentions := len stock_codes |}.

End Keywords.

End xueqiu_simple_analyzer.

(** * Specification-side notions *)

(** [needle] occurs in [hay] as a substring. *)
Definition occurs_in (needle hay : str) : Prop :=
  ∃ pre post, hay = pre ++ needle ++ post.

(** [winner] is the result of the first rule, in the order of [rules], one of
    whose keywords satisfies [hit]; it is [dflt] when no rule has such a
    keyword.  Rules after the first hit are not looked at. *)
Definition first_match {C : Type} (hit : str → Prop)
    (rules : list (C * list str)) (dflt winner : C) : Prop :=
  (∃ pre kws post,
     rules = pre ++ (winner, kws) :: post
     ∧ Forall (λ rule, ¬ Exists hit rule.2) pre
     ∧ Exists hit kws)
  ∨ (Forall (λ rule, ¬ Exists hit rule.2) rules ∧ winner = dflt).

(** The same search as a function, with the containment test of the code. *)
Fixpoint first_hit {C : Type} (text : str) (rules : list (C * list str))
    : option C :=
  match rules with
  | [] => None
  | (c, kws) :: rest =>
    if any (λ keyword, str_in keyword text) kws then Some c
    else first_hit text rest
  end.

(** The priority order of [categorize_news]: the order of its tests. *)
Definition category_rules : list (news_digest.NewsCategory * list str) :=
  [(news_digest.POLITICS, news_crawler.politics_keywords);
   (news_digest.ECONOMY, news_crawler.economy_keywords);
   (news_digest.TECHNOLOGY, news_crawler.tech_keywords);
   (news_digest.EDUCATION, news_crawler.education_keywords);
   (news_digest.SPORTS, news_crawler.sports_keywords);
   (news_digest.HEALTH, news_crawler.health_keywords);
   (news_digest.ENVIRONMENT, news_crawler.environment_keywords);
   (news_digest.CULTURE, news_crawler.culture_keywords);
   (news_digest.INTERNATIONAL, news_crawler.international_keywords)].

(** The rules of a configuration, by label, in the order of the document. *)
Definition configured_rules (cfg : news_manager.config)
    : list (str * list str) :=
  (λ item, (item.1, default [] (news_manager.cat_keywords item.2)))
    <$> default [] (news_manager.cfg_categories cfg).

(** The two switches of the [system] section; both are on when absent. *)
Definition auto_categorize_enabled (cfg : news_manager.config) : bool :=
  default true (news_manager.sys_auto_categorize
                  (default news_manager.no_system
                     (news_manager.cfg_system cfg))).
Definition auto_importance_enabled (cfg : news_manager.config) : bool :=
  default true (news_manager.sys_auto_importance
                  (default news_manager.no_system
                     (news_manager.cfg_system cfg))).

(** The scorer as the specification words it: four tiers and nothing
    before them, the second tier being membership of the source name in the
    list of authoritative sources. *)
Definition specified_importance `{StrLower} (cfg : news_manager.config)
    (title summary source : str) : Z :=
  let rules :=
    default news_manager.no_importance (news_manager.cfg_importance cfg) in
  let text := lower (title ++ u " " ++ summary) in
  if any (λ keyword, str_in keyword text)
         (default [] (news_manager.imp_critical_keywords rules)) then 5
  else if list_in source
            (default [] (news_manager.imp_authoritative_sources rules)) then 4
  else if any (λ keyword, str_in keyword text)
              (default [] (news_manager.imp_important_keywords rules)) then 3
  else if default 20 (news_manager.imp_title_length_threshold rules)
          <? len title then 3
  else 2.

(** The classifier as the specification words it: the label of the first
    configured category, in order, with a keyword contained in the text
    regardless of case; the label of Society when there is none. *)
Definition specified_label `{StrLower} (cfg : news_manager.config)
    (title summary : str) : str :=
  let text := lower (title ++ u " " ++ summary) in
  default (news_digest.value news_digest.SOCIETY)
    (fst <$> find (λ rule, any (λ keyword, str_in (lower keyword) text) rule.2)
                  (configured_rules cfg)).

(** For [keyword], the test of the code, which takes the keyword as it is
    written, and containment regardless of case answer alike on the
    lower-cased [text]. *)
Definition case_blind `{StrLower} (text keyword : str) : Prop :=
  occurs_in keyword text ↔ occurs_in (lower keyword) text.

(** ** Notions about patterns and cleaned text *)

(** A sufficient test that every match of [r] holds the character [c]. *)
Fixpoint requires (c : char) (r : re.regex) : bool :=
  match r with
  | re.Lit w => existsb (N.eqb c) w
  | re.Chars _ => false
  | re.Seq r1 r2 => requires c r1 || requires c r2
  | re.Alt r1 r2 => requires c r1 && requires c r2
  | re.Opt _ => false
  | re.Plus r1 => requires c r1
  end.

(** A matcher [m] that succeeds has split the input into what it consumed
    and what it handed to its continuation; the consumed part holds [c] when
    [need] is set. *)
Definition consumes (c : char) (need : bool)
    (m : str → (str → option str) → option str) : Prop :=
  ∀ s k out, m s k = Some out →
    ∃ w s', s = w ++ s' ∧ k s' = Some out ∧ (need = true → c ∈ w).

(** The characters that [clean_text] keeps besides white space: CJK
    ideographs, ASCII letters and digits. *)
Definition word_char (c : char) : bool :=
  re.range 0x4e00%N 0x9fa5%N c
  || re.range (re.ch "a") (re.ch "z") c
  || re.range (re.ch "A") (re.ch "Z") c
  || re.range (re.ch "0") (re.ch "9") c.

Definition space : char := 32%N.

(** Non-empty runs of word characters separated by single spaces. *)
Inductive words : str → Prop :=
| words_last c : word_char c = true → words [c]
| words_char c s : word_char c = true → words s → words (c :: s)
| words_space c s : word_char c = true → words s → words (c :: space :: s).

(** Word characters and spaces, no two spaces in a row; [after_space]
    says that a space precedes the text. *)
Fixpoint spaced (after_space : bool) (s : str) : bool :=
  match s with
  | [] => true
  | c :: s' =>
    if (c =? space)%N then negb after_space && spaced true s'
    else word_char c && spaced false s'
  end.

(** [n] of the [words] occur in [text]: every word of the list counts once,
    however often it occurs. *)
Inductive occurring (text : str) : list str → Z → Prop :=
| occurring_nil : occurring text [] 0
| occurring_hit word words n :
    occurs_in word text → occurring text words n →
    occurring text (word :: words) (n + 1)
| occurring_miss word words n :
    ¬ occurs_in word text → occurring text words n →
    occurring text (word :: words) n.

(** The number of occurrences of [word] in [text]: the positions of
    [text] at which [word] starts. *)
Fixpoint occurrences (word text : str) : Z :=
  (if startswith word text then 1 else 0)
  + match text with
    | [] => 0
    | _ :: text' => occurrences word text'
    end.

(** The occurrences of all the [words] together. *)
Definition total_occurrences (words : list str) (text : str) : Z :=
  foldr Z.add 0 ((λ word, occurrences word text) <$> words).

(** The sentiment as the specification words it: the occurrences of the
    positive keywords are counted against those of the negative ones. *)
Definition specified_sentiment `{StrLower} (text : str) : str :=
  let text_lower := lower text in
  let positive_count :=
    total_occurrences xueqiu_simple_analyzer.positive_words text_lower in
  let negative_count :=
    total_occurrences xueqiu_simple_analyzer.negative_words text_lower in
  if negative_count <? positive_count then u "乐观"
  else if positive_count <? negative_count then u "悲观"
  else u "中性".

(** The two orders on items that a sort by [key] produces. *)
Definition ascending {A : Type} (key : A → Z) : relation A :=
  λ a b, key a <= key b.
Definition descending {A : Type} (key : A → Z) : relation A :=
  λ a b, key b <= key a.

(** ** Notions about the pipeline *)

(** The record has the two fields every stage of the pipeline reads. *)
Definition has_text (news : gmap string str) : Prop :=
  is_Some (news !! "title") ∧ is_Some (news !! "summary").

(** The filter returns [True] for the record. *)
Definition accepted_by (cfg : news_manager.config) (news : gmap string str)
    : bool :=
  match news_manager.filter_news cfg news with
  | Ok true => true
  | _ => false
  end.

(** The thresholds in force: those of the [filters] section, the built-in
    ones for what it leaves out. *)
Definition filters_of (cfg : news_manager.config)
    : news_manager.filters_config :=
  default news_manager.no_filters (news_manager.cfg_filters cfg).

(** The record has the three fields the aggregator reads by subscript. *)
Definition has_fields (news : gmap string str) : Prop :=
  has_text news ∧ is_Some (news !! "source").

(** Every record the aggregator fetches, in the order it visits them: the
    feeds in the order of the table, then the pages. *)
Definition fetched (get_rss_news : str → list (gmap string str))
    (get_web_news : str → list (str * str) → list (gmap string str))
    : list (gmap string str) :=
  concat ((λ feed, get_rss_news feed.2) <$> news_crawler.rss_sources)
  ++ concat ((λ page, get_web_news page.2.1 page.2.2)
               <$> news_crawler.web_sources).

(** ** Notions about the statistics of comments *)

(** An ASCII digit. *)
Definition ascii_digit (c : char) : Prop := (48 <= c <= 57)%N.

(** The comment has a text field, whatever it holds. *)
Definition has_text_field (c : gmap string (option str)) : Prop :=
  is_Some (c !! "text").

(** The text of the comment is a non-empty string. *)
Definition has_words (c : gmap string (option str)) : bool :=
  xueqiu_simple_analyzer.truthy (default None (c !! "text")).

(** The three answers of [analyze_sentiment]. *)
Definition sentiment_labels : list str := [u "乐观"; u "悲观"; u "中性"].

(** The cleaned texts of more than five characters, in the order of the
    comments. *)
Definition valid_texts (comments : list (gmap string (option str)))
    : list str :=
  filter (λ text, 5 < len text)
    ((λ c, xueqiu_comment_analyzer.clean_text (default None (c !! "text")))
       <$> comments).

(** ** Sample data *)

Definition sample_item (i k : Z) : news_digest.NewsItem :=
  {| news_digest.title := u "news " ++ str_of_int i;
     news_digest.summary := u "summary";
     news_digest.category := news_digest.SOCIETY;
     news_digest.source := u "desk";
     news_digest.url := [];
     news_digest.publish_time := [];
     news_digest.importance := k |}.

Definition sample_digest : news_digest.NewsDigest :=
  {| news_digest.news_items :=
       [sample_item 1 3; sample_item 2 5; sample_item 3 5; sample_item 4 2;
        sample_item 5 5];
     news_digest.today := u "2024年01月01日" |}.

(** A record as [fetch_web_news] builds it for a page whose summary element
    is not found: [title] and [source] are set, [summary] is not. *)
Definition record_without_summary : gmap string str :=
  {[ "title" := u "Daily news"; "source" := u "news.sina.com.cn" ]}.

Definition record_without_title : gmap string str :=
  {[ "summary" := u "A summary of the day"; "source" := u "news.sina.com.cn" ]}.

(** The text [a: [] is no YAML document. *)
Definition unclosed_sequence : config_source :=
  Malformed (u "while parsing a flow sequence: expected ',' or ']'").

Definition sample_importance : news_manager.importance_config :=
  {| news_manager.imp_critical_keywords := Some [u "urgent"];
     news_manager.imp_authoritative_sources := Some [u "Xinhua News Agency"];
     news_manager.imp_important_keywords := Some [u "notice"];
     news_manager.imp_title_length_threshold := None |}.

Definition sample_categories : list (str * news_manager.category_config) :=
  [(u "经济", {| news_manager.cat_keywords := Some [u "bank"; u "market"] |});
   (u "体育", {| news_manager.cat_keywords := Some [u "match"; u "holiday"] |})].

(** A configuration that leaves both switches at their default. *)
Definition sample_config : news_manager.config :=
  {| news_manager.cfg_system := None;
     news_manager.cfg_categories := Some sample_categories;
     news_manager.cfg_importance := Some sample_importance;
     news_manager.cfg_filters := None |}.

(** The same rules with both switches turned off. *)
Definition switched_off_config : news_manager.config :=
  {| news_manager.cfg_system :=
       Some {| news_manager.sys_auto_categorize := Some false;
               news_manager.sys_auto_importance := Some false |};
     news_manager.cfg_categories := Some sample_categories;
     news_manager.cfg_importance := Some sample_importance;
     news_manager.cfg_filters := None |}.

(** A record with every field the pipeline reads. *)
Definition complete_record : gmap string str :=
  {[ "title" := u "Daily news"; "summary" := u "A summary of the day";
     "source" := u "news.sina.com.cn"; "url" := u "https://news.sina.com.cn/1" ]}.

Definition sample_filters : news_manager.filters_config :=
  {| news_manager.flt_title_blacklist := Some [u "advert"];
     news_manager.flt_source_blacklist := Some [u "spam"];
     news_manager.flt_min_title_length := Some 3;
     news_manager.flt_max_title_length := None;
     news_manager.flt_min_summary_length := None;
     news_manager.flt_max_summary_length := Some 40 |}.

Definition filtering_config : news_manager.config :=
  {| news_manager.cfg_system := None;
     news_manager.cfg_categories := Some sample_categories;
     news_manager.cfg_importance := Some sample_importance;
     news_manager.cfg_filters := Some sample_filters |}.

Definition sample_comments : list xueqiu_simple_analyzer.comment :=
  [ {[ "text" := Some (u "600519 is strong, 600519 <b>and</b> 000001") ]};
    {[ "text" := None ]};
    {[ "text" := Some (u "see https://xueqiu.com/1234567 now") ]};
    {[ "text" := Some [] ]} ].

(** * Properties of the runtime model *)

Lemma startswith_spec p s : startswith p s = true ↔ ∃ post, s = p ++ post.
Proof.
  revert s. induction p as [|a p IH]; intros s; simpl.
  - split; [eauto|done].
  - destruct s as [|b s]; simpl.
    + split; [done|]. intros [post Hpost]. discriminate.
    + rewrite andb_true_iff, N.eqb_eq, IH. split.
      * intros [-> [post ->]]. eauto.
      * intros [post Hpost]. injection Hpost as -> ->. eauto.
Qed.

Lemma str_in_spec needle hay : str_in needle hay = true ↔ occurs_in needle hay.
Proof.
  unfold occurs_in. induction hay as [|c hay IH]; simpl.
  - rewrite orb_false_r, startswith_spec. split.
    + intros [post Hpost]. exists [], post. done.
    + intros [pre [post Hpost]].
      destruct pre; [|discriminate]. eauto.
  - rewrite orb_true_iff, startswith_spec, IH. split.
    + intros [[post Hpost]|[pre [post Hpost]]].
      * exists [], post. done.
      * exists (c :: pre), post. simpl. by f_equal.
    + intros [pre [post Hpost]]. destruct pre as [|c' pre]; simpl in Hpost.
      * left. eauto.
      * right. injection Hpost as _ ->. eauto.
Qed.

Lemma any_spec {A : Type} (f : A → bool) (l : list A) :
  any f l = true ↔ Exists (λ x, f x = true) l.
Proof.
  unfold any. rewrite existsb_exists, Exists_exists.
  split; intros [x [Hx Hf]]; exists x; split; try done;
    by apply list_elem_of_In.
Qed.

Lemma any_str_in_spec (keywords : list str) (text : str) :
  any (λ keyword, str_in keyword text) keywords = true
  ↔ Exists (λ keyword, occurs_in keyword text) keywords.
Proof.
  rewrite any_spec, !Exists_exists.
  split; intros [keyword [Hin Hk]]; exists keyword; split; try done;
    by apply str_in_spec.
Qed.

Lemma len_nonneg {A : Type} (l : list A) : 0 <= len l.
Proof. unfold len. lia. Qed.

Lemma len_app {A : Type} (l1 l2 : list A) : len (l1 ++ l2) = len l1 + len l2.
Proof. unfold len. rewrite length_app. lia. Qed.

(** ** [sorted] is a stable sort *)
Section SortedFacts.
Context {A : Type} (key : A → Z).

Lemma insert_sorted_perm x l : insert_sorted key x l ≡ₚ x :: l.
Proof.
  induction l as [|y l IH]; simpl; [done|].
  destruct (key x <=? key y); [done|].
  rewrite IH. apply Permutation_swap.
Qed.

Lemma sort_ascending_perm l : sort_ascending key l ≡ₚ l.
Proof.
  induction l as [|x l IH]; simpl; [done|].
  by rewrite insert_sorted_perm, IH.
Qed.

Lemma insert_sorted_sorted x l :
  StronglySorted (ascending key) l → StronglySorted (ascending key) (insert_sorted key x l).
Proof.
  induction 1 as [|y l Hl IH Hy]; simpl.
  - repeat constructor.
  - destruct (key x <=? key y) eqn:Hxy.
    + apply Z.leb_le in Hxy. constructor; [by constructor|].
      constructor; [done|].
      eapply Forall_impl; [exact Hy|]. unfold ascending. simpl. lia.
    + apply Z.leb_gt in Hxy. constructor; [done|].
      rewrite insert_sorted_perm. constructor; [|done]. unfold ascending. lia.
Qed.

Lemma sort_ascending_sorted l : StronglySorted (ascending key) (sort_ascending key l).
Proof.
  induction l as [|x l IH]; simpl; [constructor|].
  by apply insert_sorted_sorted.
Qed.

Lemma insert_sorted_filter k x l :
  filter (λ y, key y = k) (insert_sorted key x l)
  = filter (λ y, key y = k) (x :: l).
Proof.
  induction l as [|y l IH]; simpl; [done|].
  destruct (key x <=? key y) eqn:Hxy; [done|].
  apply Z.leb_gt in Hxy.
  rewrite (filter_cons _ y), IH, !filter_cons.
  repeat case_decide; try done; lia.
Qed.

Lemma sort_ascending_filter k l :
  filter (λ y, key y = k) (sort_ascending key l) = filter (λ y, key y = k) l.
Proof.
  induction l as [|x l IH]; simpl; [done|].
  by rewrite insert_sorted_filter, !filter_cons, IH.
Qed.

Lemma filter_rev (P : A → Prop) `{∀ x, Decision (P x)} l :
  filter P (rev l) = rev (filter P l).
Proof.
  induction l as [|x l IH]; simpl; [done|].
  rewrite filter_app, IH, !filter_cons, filter_nil.
  case_decide; simpl; by rewrite ?app_nil_r.
Qed.

Lemma StronglySorted_rev (R : relation A) l :
  StronglySorted R l → StronglySorted (flip R) (rev l).
Proof.
  induction 1 as [|x l Hl IH Hx]; simpl; [constructor|].
  apply StronglySorted_app; split_and!.
  - intros a b Ha Hb. apply list_elem_of_singleton in Hb as ->.
    apply list_elem_of_In, in_rev in Ha.
    rewrite Forall_forall in Hx. by apply Hx, list_elem_of_In.
  - done.
  - repeat constructor.
Qed.

Lemma sorted_reverse_perm l : sorted key true l ≡ₚ l.
Proof.
  unfold sorted. by rewrite <- Permutation_rev, sort_ascending_perm,
    <- Permutation_rev.
Qed.

Lemma sorted_reverse_descending l : StronglySorted (descending key) (sorted key true l).
Proof. apply (StronglySorted_rev (ascending key)), sort_ascending_sorted. Qed.

Lemma sorted_reverse_stable k l :
  filter (λ y, key y = k) (sorted key true l) = filter (λ y, key y = k) l.
Proof.
  unfold sorted.
  by rewrite filter_rev, sort_ascending_filter, filter_rev, rev_involutive.
Qed.

(** The three properties determine the outcome: whatever stable sort the
    runtime uses returns the list that [sorted] returns. *)
Lemma stable_descending_unique l1 l2 :
  StronglySorted (descending key) l1 → StronglySorted (descending key) l2 →
  (∀ k, filter (λ y, key y = k) l1 = filter (λ y, key y = k) l2) →
  l1 = l2.
Proof.
  intros H1. revert l2.
  induction H1 as [|x l1 Hl1 IH Hx]; intros l2 H2 Hf.
  - destruct l2 as [|y l2]; [done|].
    specialize (Hf (key y)). rewrite filter_cons_True in Hf by done.
    discriminate.
  - destruct H2 as [|y l2 Hl2 Hy].
    { specialize (Hf (key x)). rewrite filter_cons_True in Hf by done.
      discriminate. }
    assert (key x = key y) as Hxy.
    { apply Z.le_antisymm.
      - pose proof (Hf (key x)) as Hk.
        rewrite filter_cons_True in Hk by done.
        assert (x ∈ filter (λ y0, key y0 = key x) (y :: l2)) as Hin
          by (rewrite <- Hk; left).
        apply list_elem_of_filter in Hin as [_ Hin].
        apply elem_of_cons in Hin as [->|Hin]; [done|].
        rewrite Forall_forall in Hy. by apply Hy.
      - pose proof (Hf (key y)) as Hk.
        rewrite (filter_cons_True _ y) in Hk by done.
        assert (y ∈ filter (λ y0, key y0 = key y) (x :: l1)) as Hin
          by (rewrite Hk; left).
        apply list_elem_of_filter in Hin as [_ Hin].
        apply elem_of_cons in Hin as [->|Hin]; [done|].
        rewrite Forall_forall in Hx. by apply Hx. }
    pose proof (Hf (key x)) as Hk.
    rewrite filter_cons_True in Hk by done.
    rewrite filter_cons_True in Hk by done.
    injection Hk as -> Hk. f_equal. apply IH; [done|].
    intros k. specialize (Hf k). rewrite !filter_cons in Hf.
    case_decide; [by injection Hf|done].
Qed.

End SortedFacts.

(** * news_digest.py *)
Section NewsDigestFacts.
Import news_digest.

(** C10.  [add_news] validates nothing: whatever the arguments, an
    importance outside 1..5 included, it appends exactly one item whose
    fields are the arguments as passed ([url] and [publish_time] default to
    the empty string and [importance] to 1 when omitted), keeps the items
    stored before as they were, and makes the number of items,
    [len(self.news_items)], grow by one. *)
Theorem add_news_appends_unvalidated (self : NewsDigest)
    (title summary : str) (category : NewsCategory) (source : str)
    (url publish_time : option str) (importance : option Z) (k : Z) :
  let after :=
    add_news self title summary category source url publish_time importance in
  news_items after
    = news_items self
      ++ [ {| title := title; summary := summary; category := category;
              source := source; url := default [] url;
              publish_time := default [] publish_time;
              importance := default 1 importance |} ]
  ∧ take (length (news_items self)) (news_items after) = news_items self
  ∧ len (news_items after) = len (news_items self) + 1
  ∧ today after = today self
  ∧ news_digest.importance <$> last (news_items
      (add_news self title summary category source url publish_time (Some k)))
    = Some k
  ∧ last (news_items (add_news self title summary category source
                        None None None))
    = Some {| title := title; summary := summary; category := category;
              source := source; url := []; publish_time := [];
              importance := 1 |}.
Proof.
  simpl. split_and!.
  - done.
  - by rewrite take_app_length.
  - rewrite len_app. done.
  - done.
  - by rewrite last_snoc.
  - by rewrite last_snoc.
Qed.

(** C4.  For a bound [0 <= n], [get_top_news n] is the first [n] items of the
    stable descending sort of the stored items by importance: a
    rearrangement of the items, in descending order of importance, in which
    the items of any one importance keep their insertion order.  A bound
    beyond the size returns all of them.  Five items of importances
    3, 5, 5, 2, 5 inserted in that order yield, for [n = 3], the three items
    of importance 5 in their insertion order. *)
Theorem get_top_news_stable_descending (self : NewsDigest) (n : Z) :
  0 <= n →
  (∃ ranked,
     ranked ≡ₚ news_items self
     ∧ StronglySorted (λ a b, importance b <= importance a) ranked
     ∧ (∀ k, filter (λ x, importance x = k) ranked
             = filter (λ x, importance x = k) (news_items self))
     ∧ get_top_news self n = take (Z.to_nat n) ranked
     ∧ len (get_top_news self n) = Z.min n (len (news_items self))
     ∧ (len (news_items self) <= n → get_top_news self n = ranked))
  ∧ (∀ a b c d e day,
       importance a = 3 → importance b = 5 → importance c = 5 →
       importance d = 2 → importance e = 5 →
       get_top_news {| news_items := [a; b; c; d; e]; today := day |} 3
       = [b; c; e]).
Proof.
  intros Hn. split.
  - exists (sorted importance true (news_items self)).
    assert (get_top_news self n
            = take (Z.to_nat n) (sorted importance true (news_items self)))
      as Htop.
    { unfold get_top_news, slice_to.
      destruct (n <? 0) eqn:Hneg; [apply Z.ltb_lt in Hneg; lia|done]. }
    assert (length (sorted importance true (news_items self))
            = length (news_items self)) as Hlen
      by apply Permutation_length, sorted_reverse_perm.
    split_and!.
    + apply sorted_reverse_perm.
    + apply sorted_reverse_descending.
    + intros k. apply sorted_reverse_stable.
    + done.
    + rewrite Htop. unfold len. rewrite length_take, Hlen. lia.
    + intros Hall. rewrite Htop. apply take_ge. unfold len in Hall. lia.
  - intros a b c d e day Ha Hb Hc Hd He.
    unfold get_top_news, sorted, slice_to. simpl.
    rewrite ?Ha, ?Hb, ?Hc, ?Hd, ?He. simpl.
    rewrite ?Ha, ?Hb, ?Hc, ?Hd, ?He. simpl.
    rewrite ?Ha, ?Hb, ?Hc, ?Hd, ?He. simpl.
    rewrite ?Ha, ?Hb, ?Hc, ?Hd, ?He. simpl.
    done.
Qed.

Lemma get_top_news_stable_descending_witness :
  0 <= 3
  ∧ get_top_news sample_digest 3
    = [sample_item 2 5; sample_item 3 5; sample_item 5 5].
Proof.
  split; [lia|].
  apply (proj2 (get_top_news_stable_descending sample_digest 3 ltac:(lia)));
    reflexivity.
Defined.

(** C7.  On a digest without items [generate_digest] returns the fixed
    sentence and nothing else: the outcome holds no header line, no headline
    section and no section of any category.  The function is total, so it
    raises nothing. *)
Theorem generate_digest_empty (day now : str) :
  let report := generate_digest (init day) now in
  report = u "今日暂无新闻"
  ∧ ¬ occurs_in (u "📰 中国今日新闻早报") report
  ∧ ¬ occurs_in (u "🔥 头条新闻") report
  ∧ Forall (λ c, ¬ occurs_in (u "📋 " ++ value c) report) members.
Proof.
  simpl. split; [done|].
  split_and!; [| |repeat constructor];
    rewrite <- str_in_spec; by vm_compute.
Qed.

End NewsDigestFacts.

(** * The importance scorers *)
Section ImportanceFacts.
Context `{StrLower}.

(** C9.  Both scorers return an integer between 1 and 5 whatever the
    configuration and the input: every exit of either function returns one
    of the constants 2, 3, 4, 5, so no out-of-range importance leaves a
    scorer. *)
Theorem determine_importance_in_range (cfg : news_manager.config)
    (title summary source : str) :
  1 <= news_manager.determine_importance cfg title summary source <= 5
  ∧ 1 <= news_crawler.determine_importance title summary source <= 5.
Proof.
  unfold news_manager.determine_importance,
    news_crawler.determine_importance.
  split; repeat (match goal with |- context [if ?b then _ else _] =>
                   destruct b end); lia.
Qed.

End ImportanceFacts.

(** * Loading the configuration *)
Section LoadConfigFacts.

(** C2, as the code has it.  A missing configuration file makes each loader
    return its built-in default configuration without raising.  A
    malformed document is not recovered: the error of the YAML parser leaves
    the loader, whatever the error is. *)
Theorem load_config_missing_defaults (problem : str) :
  news_manager.load_config Missing = Ok news_manager.get_default_config
  ∧ xueqiu_comment_analyzer._load_config Missing
    = Ok (PDict [("api_key", PStr []); ("max_comments", PInt 1000);
                 ("timeout", PInt 30); ("retry_times", PInt 3)])
  ∧ xueqiu_simple_analyzer._load_config Missing
    = Ok (PDict [("max_comments", PInt 1000); ("timeout", PInt 30);
                 ("retry_times", PInt 3); ("analysis_days", PInt 7);
                 ("max_topics", PInt 10); ("max_comments_per_topic", PInt 50)])
  ∧ news_manager.load_config (Malformed problem) = Raise (YAMLError problem)
  ∧ xueqiu_comment_analyzer._load_config (Malformed problem)
    = Raise (YAMLError problem)
  ∧ xueqiu_simple_analyzer._load_config (Malformed problem)
    = Raise (YAMLError problem).
Proof. by split_and!. Qed.

(** C2 as stated fails on a malformed document: the loader raises instead
    of returning the default configuration. *)
Lemma load_config_malformed_raises :
  news_manager.load_config unclosed_sequence
    ≠ Ok news_manager.get_default_config
  ∧ (∃ e, news_manager.load_config unclosed_sequence = Raise e)
  ∧ (∃ e, xueqiu_comment_analyzer._load_config unclosed_sequence = Raise e).
Proof. split_and!; [done|by eexists..]. Qed.

End LoadConfigFacts.

(** * The item filter *)
Section FilterFacts.
Import news_manager.

(** A record with a title and a summary is always answered. *)
Lemma filter_news_complete_record (cfg : config) (news : gmap string str) :
  is_Some (news !! "title") → is_Some (news !! "summary") →
  ∃ accepted, filter_news cfg news = Ok accepted.
Proof.
  intros [t Ht] [s Hs]. unfold filter_news.
  assert (∀ bl, ∃ b, any_in_title news bl = Ok b) as Hany.
  { induction bl as [|kw bl [b IH]]; simpl; [by eexists|].
    unfold getitem. rewrite Ht. simpl.
    destruct (str_in kw t); [by eexists|]. by exists b. }
  destruct (Hany (default [] (flt_title_blacklist
                     (default no_filters (cfg_filters cfg))))) as [b ->].
  simpl. destruct b; [by eexists|].
  destruct (any _ _); [by eexists|].
  unfold getitem. rewrite Ht, Hs. simpl.
  destruct (negb _); [by eexists|].
  destruct (negb _); by eexists.
Qed.

(** A record without a title is answered only by way of an earlier
    rejection: a missing title raises as soon as a title test is reached. *)
Lemma filter_news_missing_title (cfg : config) (news : gmap string str) :
  news !! "title" = None →
  filter_news cfg news = Raise (KeyError "title")
  ∨ filter_news cfg news = Ok false.
Proof.
  intros Ht. unfold filter_news.
  destruct (default [] (flt_title_blacklist _)) as [|kw bl]; simpl.
  - destruct (any _ _); [by right|].
    unfold getitem. rewrite Ht. by left.
  - unfold getitem. rewrite Ht. by left.
Qed.

(** C3, where the code departs from it.  With the default configuration,
    a record that has a title and a source but no summary makes
    [filter_news] raise [KeyError] instead of returning a boolean; so does
    a record without a title. *)
Theorem filter_news_raises_on_missing_field :
  filter_news default_config record_without_summary
    = Raise (KeyError "summary")
  ∧ filter_news default_config record_without_title
    = Raise (KeyError "title").
Proof. split; by vm_compute. Qed.

End FilterFacts.

(** * The scorers as decision lists *)
Section ScorerFacts.
Context `{StrLower}.
Import news_manager.

Lemma any_reflect {A : Type} (f : A → bool) (P : A → Prop) (l : list A) :
  (∀ x, f x = true ↔ P x) → reflect (Exists P l) (any f l).
Proof.
  intros Hf. apply iff_reflect. rewrite any_spec, !Exists_exists.
  split; intros [x [Hx Hp]]; exists x; split; try done; by apply Hf.
Qed.

Lemma keywords_reflect (keywords : list str) (text : str) :
  reflect (Exists (λ keyword, occurs_in keyword text) keywords)
          (any (λ keyword, str_in keyword text) keywords).
Proof. apply any_reflect. intros keyword. apply str_in_spec. Qed.

Lemma sources_reflect (sources : list str) (source : str) :
  reflect (Exists (λ auth_source, occurs_in source auth_source) sources)
          (any (λ auth_source, str_in source auth_source) sources).
Proof. apply any_reflect. intros auth_source. apply str_in_spec. Qed.

(** With the switch off, the scorer of news_manager.py looks at nothing. *)
Lemma determine_importance_switched_off (cfg : config)
    (title summary source : str) :
  auto_importance_enabled cfg = false →
  determine_importance cfg title summary source = 3.
Proof.
  unfold auto_importance_enabled, determine_importance. by intros ->.
Qed.

(** C1, as the code has it.  While [system.auto_importance] is on (it is
    when absent), the scorer of news_manager.py is a decision list over the
    lower-cased text [title + ' ' + summary]: 5 when a critical keyword
    occurs in the text; otherwise 4 when the source name occurs in one of the
    authoritative names; otherwise 3 when an important keyword occurs in the
    text; otherwise 3 when the title is longer than the threshold (20
    when absent); otherwise 2.  So a text with a critical and an important
    keyword scores 5, and a source that occurs in no authoritative name does
    not score 4.  The scorer of news_crawler.py has its own fixed keywords
    and returns 5 when one of them occurs in the text. *)
Theorem determine_importance_tiers (cfg : config)
    (title summary source : str) :
  auto_importance_enabled cfg = true →
  let rules := default no_importance (cfg_importance cfg) in
  let text := lower (title ++ u " " ++ summary) in
  let critical :=
    Exists (λ keyword, occurs_in keyword text)
           (default [] (imp_critical_keywords rules)) in
  let authoritative :=
    Exists (λ auth_source, occurs_in source auth_source)
           (default [] (imp_authoritative_sources rules)) in
  let important :=
    Exists (λ keyword, occurs_in keyword text)
           (default [] (imp_important_keywords rules)) in
  let long_title := default 20 (imp_title_length_threshold rules) < len title in
  let score := determine_importance cfg title summary source in
  (critical → score = 5)
  ∧ (¬ critical → authoritative → score = 4)
  ∧ (¬ critical → ¬ authoritative → important → score = 3)
  ∧ (¬ critical → ¬ authoritative → ¬ important → long_title → score = 3)
  ∧ (¬ critical → ¬ authoritative → ¬ important → ¬ long_title → score = 2)
  ∧ (¬ authoritative → score ≠ 4)
  ∧ (Exists (λ keyword, occurs_in keyword text)
            news_crawler.important_keywords →
     news_crawler.determine_importance title summary source = 5).
Proof.
  intros Hon rules text critical authoritative important long_title score.
  assert (news_crawler.determine_importance title summary source
          = if any (λ keyword, str_in keyword text)
                   news_crawler.important_keywords
            then 5 else 4) as Hcrawler by done.
  assert (score
          = if any (λ keyword, str_in keyword text)
                   (default [] (imp_critical_keywords rules)) then 5
            else if any (λ auth_source, str_in source auth_source)
                        (default [] (imp_authoritative_sources rules)) then 4
            else if any (λ keyword, str_in keyword text)
                        (default [] (imp_important_keywords rules)) then 3
            else if default 20 (imp_title_length_threshold rules) <? len title
                 then 3 else 2) as Hscore.
  { unfold score, determine_importance.
    unfold auto_importance_enabled in Hon. by rewrite Hon. }
  rewrite Hscore, Hcrawler. clear Hscore Hcrawler.
  destruct (keywords_reflect (default [] (imp_critical_keywords rules)) text);
  destruct (sources_reflect (default [] (imp_authoritative_sources rules))
              source);
  destruct (keywords_reflect (default [] (imp_important_keywords rules)) text);
  destruct (Z.ltb_spec (default 20 (imp_title_length_threshold rules))
              (len title));
  destruct (keywords_reflect news_crawler.important_keywords text);
  split_and!; try done; try lia; unfold long_title; intros; lia.
Qed.

(** The second test of news_crawler.py does not read the source: once no
    keyword of the first tier occurs, the outcome is 4 for every source,
    and the two exits after it are never taken. *)
Lemma crawler_importance_is_5_or_4 (title summary source : str) :
  news_crawler.determine_importance title summary source = 5
  ∨ news_crawler.determine_importance title summary source = 4.
Proof.
  unfold news_crawler.determine_importance.
  destruct (any _ news_crawler.important_keywords); [by left|by right].
Qed.

End ScorerFacts.

Lemma determine_importance_tiers_witness :
  auto_importance_enabled sample_config = true
  ∧ @news_manager.determine_importance ascii_lower sample_config
      (u "Urgent notice") (u "rates are up") (u "blog") = 5.
Proof.
  split; [reflexivity|].
  apply (proj1 (@determine_importance_tiers ascii_lower sample_config
                  (u "Urgent notice") (u "rates are up") (u "blog")
                  eq_refl)).
  apply any_str_in_spec. by vm_compute.
Defined.

(** C1 as stated fails when the switch is off: a text with a critical and
    an important keyword scores 3 where the four tiers give 5. *)
Lemma determine_importance_ignores_tiers_when_off :
  @news_manager.determine_importance ascii_lower switched_off_config
    (u "Urgent notice") (u "rates are up") (u "blog") = 3
  ∧ @specified_importance ascii_lower switched_off_config
      (u "Urgent notice") (u "rates are up") (u "blog") = 5.
Proof. split; by vm_compute. Qed.

(** The second tier of news_manager.py is containment in a name, not
    membership in the list. *)
Lemma determine_importance_partial_source_name :
  @news_manager.determine_importance ascii_lower sample_config
    (u "Weather") (u "sunny") (u "Xinhua") = 4
  ∧ list_in (u "Xinhua") [u "Xinhua News Agency"] = false.
Proof. split; by vm_compute. Qed.

Lemma crawler_importance_unknown_source :
  @news_crawler.determine_importance ascii_lower
    (u "hello") (u "world") (u "a personal blog") = 4.
Proof. by vm_compute. Qed.


(** * The classifiers as first-match searches *)
Section ClassifierFacts.
Context `{StrLower}.
Import news_digest news_manager.

Lemma first_hit_first_match {C : Type} (text : str) (hit : str → Prop)
    (rules : list (C * list str)) (dflt : C) :
  Forall (λ rule, Forall (λ keyword, occurs_in keyword text ↔ hit keyword)
                         rule.2) rules →
  first_match hit rules dflt (default dflt (first_hit text rules)).
Proof.
  induction 1 as [|[c kws] rest Hkws Hrest IH]; simpl.
  - right. by split.
  - assert (Exists (λ keyword, occurs_in keyword text) kws ↔ Exists hit kws)
      as Hiff.
    { rewrite !Exists_exists. rewrite Forall_forall in Hkws. simpl in Hkws.
      split; intros [kw [Hin Hkw]]; exists kw; split; try done;
        by apply (Hkws kw Hin). }
    destruct (keywords_reflect kws text) as [Hhit|Hmiss].
    + left. exists [], kws, rest. split_and!; [done|constructor|by apply Hiff].
    + assert (¬ Exists hit kws) as Hmiss' by (by rewrite <- Hiff).
      remember (default dflt (first_hit text rest)) as winner eqn:Hw.
      clear Hw.
      destruct IH as [(pre & kws' & post & -> & Hpre & Hhit)|[Hnone Hd]].
      * left. exists ((c, kws) :: pre), kws', post.
        split_and!; [done|by constructor|done].
      * right. split; [by constructor|done].
Qed.

Lemma categorize_news_first_hit (title summary : str) :
  news_crawler.categorize_news title summary
  = default SOCIETY
      (first_hit (lower (title ++ u " " ++ summary)) category_rules).
Proof.
  unfold news_crawler.categorize_news, category_rules, first_hit.
  repeat (destruct (any _ _); [done|]). done.
Qed.

Lemma find_label (name : str) :
  (∃ c, value c = name) →
  ∃ c, find (λ category_enum, bool_decide (value category_enum = name))
            members = Some c
       ∧ value c = name.
Proof.
  intros [c Hc].
  destruct (find _ members) as [c'|] eqn:Hfind.
  - exists c'. split; [done|].
    apply find_some in Hfind as [_ Hv]. by apply bool_decide_eq_true in Hv.
  - assert (In c members) as Hin by (destruct c; simpl; tauto).
    pose proof (find_none _ _ Hfind c Hin) as Hno.
    by apply bool_decide_eq_false in Hno.
Qed.

Lemma categorize_loop_first_hit (text : str)
    (items : list (str * category_config)) :
  Forall (λ item, ∃ c, value c = item.1) items →
  value (categorize_loop text items)
  = default (value SOCIETY)
      (first_hit text
         ((λ item, (item.1, default [] (cat_keywords item.2))) <$> items)).
Proof.
  induction 1 as [|[name conf] rest Hname Hrest IH]; [done|].
  rewrite fmap_cons. cbn [categorize_loop first_hit fst snd].
  destruct (any _ _); [|done].
  destruct (find_label name Hname) as [c [-> Hc]]. done.
Qed.

(** With the switch off, the classifier of news_manager.py looks at nothing. *)
Lemma auto_categorize_switched_off (cfg : config) (title summary : str) :
  auto_categorize_enabled cfg = false →
  auto_categorize cfg title summary = SOCIETY.
Proof. unfold auto_categorize_enabled, auto_categorize. by intros ->. Qed.

(** C5, as the code has it.  Both classifiers look for keywords in the
    lower-cased text [title + ' ' + summary], category by category in a
    fixed order: the order of the tests in news_crawler.py, the order of the
    configured categories in news_manager.py.  On a text for which the
    code's test agrees with containment regardless of case for every
    keyword (it takes the keywords as they are written), the outcome is the
    first category with a keyword contained in the text regardless of case,
    whatever later categories match as well, and Society when no category
    has one.  For news_manager.py this holds while [system.auto_categorize]
    is on and every configured name is a label of the enumeration. *)
Theorem classifiers_first_match (cfg : config) (title summary : str) :
  let text := lower (title ++ u " " ++ summary) in
  let hit := λ keyword, occurs_in (lower keyword) text in
  (Forall (λ rule, Forall (case_blind text) rule.2) category_rules →
   first_match hit category_rules SOCIETY
     (news_crawler.categorize_news title summary))
  ∧ (auto_categorize_enabled cfg = true →
     Forall (λ rule, ∃ c, value c = rule.1) (configured_rules cfg) →
     Forall (λ rule, Forall (case_blind text) rule.2) (configured_rules cfg) →
     first_match hit (configured_rules cfg) (value SOCIETY)
       (value (auto_categorize cfg title summary))).
Proof.
  intros text hit. split.
  - intros Hblind. rewrite categorize_news_first_hit.
    by apply first_hit_first_match.
  - intros Hon Hlabels Hblind.
    unfold auto_categorize. unfold auto_categorize_enabled in Hon.
    rewrite Hon. cbn [negb].
    rewrite categorize_loop_first_hit.
    + by apply first_hit_first_match.
    + unfold configured_rules in Hlabels.
      by rewrite Forall_fmap in Hlabels.
Qed.

Lemma case_blind_check {C : Type} (text : str) (rules : list (C * list str)) :
  forallb (λ rule : C * list str,
             forallb (λ keyword,
                        eqb (str_in keyword text) (str_in (lower keyword) text))
                     rule.2) rules = true →
  Forall (λ rule, Forall (case_blind text) rule.2) rules.
Proof.
  rewrite forallb_forall, Forall_forall. intros Hall rule Hrule.
  apply list_elem_of_In, Hall in Hrule.
  rewrite forallb_forall in Hrule. apply Forall_forall. intros keyword Hin.
  apply list_elem_of_In, Hrule, eqb_prop in Hin.
  unfold case_blind. by rewrite <- !str_in_spec, Hin.
Qed.

End ClassifierFacts.

Lemma classifiers_first_match_witness :
  first_match
    (λ keyword,
       occurs_in (@lower ascii_lower keyword)
         (@lower ascii_lower (u "央行发布最新货币政策报告" ++ u " " ++ u "")))
    category_rules news_digest.SOCIETY
    (@news_crawler.categorize_news ascii_lower
       (u "央行发布最新货币政策报告") (u ""))
  ∧ first_match
      (λ keyword,
         occurs_in (@lower ascii_lower keyword)
           (@lower ascii_lower
              (u "Bank holiday" ++ u " " ++ u "Match postponed")))
      (configured_rules sample_config)
      (news_digest.value news_digest.SOCIETY)
      (news_digest.value
         (@news_manager.auto_categorize ascii_lower sample_config
            (u "Bank holiday") (u "Match postponed"))).
Proof.
  split.
  - refine (proj1 (@classifiers_first_match ascii_lower sample_config
                     (u "央行发布最新货币政策报告") (u "")) _).
    apply (@case_blind_check ascii_lower). vm_compute. reflexivity.
  - refine (proj2 (@classifiers_first_match ascii_lower sample_config
                     (u "Bank holiday") (u "Match postponed")) _ _ _).
    + reflexivity.
    + repeat constructor;
        [by exists news_digest.ECONOMY|by exists news_digest.SPORTS].
    + apply (@case_blind_check ascii_lower). vm_compute. reflexivity.
Defined.

(** What the two searches of the example above find: the earlier category wins
    although a later one matches too. *)
Lemma classifiers_priority_examples :
  @news_crawler.categorize_news ascii_lower
    (u "央行发布最新货币政策报告") (u "") = news_digest.POLITICS
  ∧ any (λ keyword,
           str_in keyword (ascii_lower (u "央行发布最新货币政策报告" ++ u " ")))
        news_crawler.economy_keywords = true
  ∧ @news_manager.auto_categorize ascii_lower sample_config
      (u "Bank holiday") (u "Match postponed") = news_digest.ECONOMY.
Proof. split_and!; by vm_compute. Qed.

(** C5 as stated fails when the switch is off: a text with a keyword of a
    configured category is classified as Society. *)
Lemma auto_categorize_ignores_rules_when_off :
  @news_manager.auto_categorize ascii_lower switched_off_config
    (u "Bank holiday") (u "Match postponed") = news_digest.SOCIETY
  ∧ @specified_label ascii_lower switched_off_config
      (u "Bank holiday") (u "Match postponed")
    = news_digest.value news_digest.ECONOMY.
Proof. split; by vm_compute. Qed.

(** The keywords of news_crawler.py written with capitals are compared
    with a lower-cased text and so never found: a title that is such a
    keyword falls through to Society. *)
Lemma categorize_news_capital_keyword :
  @news_crawler.categorize_news ascii_lower (u "GDP") (u "")
    = news_digest.SOCIETY
  ∧ In (u "GDP") news_crawler.economy_keywords
  ∧ @news_crawler.categorize_news ascii_lower (u "AI") (u "")
    = news_digest.SOCIETY
  ∧ In (u "AI") news_crawler.tech_keywords.
Proof.
  split_and!.
  - vm_compute. reflexivity.
  - unfold news_crawler.economy_keywords. simpl. tauto.
  - vm_compute. reflexivity.
  - unfold news_crawler.tech_keywords. simpl. tauto.
Qed.

(** * Matching and substitution *)
Section RegexFacts.
Import re.

Lemma strip_prefix_spec w s s' : strip_prefix w s = Some s' ↔ s = w ++ s'.
Proof.
  revert s. induction w as [|a w IH]; intros s; simpl.
  - split; congruence.
  - destruct s as [|b s]; [done|].
    destruct (N.eqb_spec a b) as [->|Hne].
    + rewrite IH. split; congruence.
    + split; [done|]. intros Heq. congruence.
Qed.

Lemma rounds_consumes c need body k bound s out :
  consumes c need body →
  rounds body k bound s = Some out →
  ∃ w s', s = w ++ s' ∧ k s' = Some out ∧ (need = true → c ∈ w).
Proof.
  intros Hbody. revert s out.
  induction bound as [|bound IH]; intros s out Hr; simpl in Hr;
    apply Hbody in Hr as (w & s' & -> & Hk & Hc).
  - by exists w, s'.
  - destruct (_ <? _)%nat; [|by exists w, s'].
    destruct (rounds body k bound s') as [out'|] eqn:Hmore;
      [|by exists w, s'].
    injection Hk as ->.
    apply IH in Hmore as (w2 & s2 & -> & Hk2 & _).
    exists (w ++ w2), s2. split_and!; [by rewrite app_assoc|done|].
    intros Hneed. apply elem_of_app. left. by apply Hc.
Qed.

Lemma run_consumes c r : consumes c (requires c r) (run r).
Proof.
  induction r as [w|p|r1 IH1 r2 IH2|r1 IH1 r2 IH2|r1 IH1|r1 IH1];
    intros s k out Hrun; simpl in Hrun.
  - destruct (strip_prefix w s) as [s'|] eqn:Hw; [|done].
    apply strip_prefix_spec in Hw as ->.
    exists w, s'. split_and!; [done..|]. simpl.
    rewrite existsb_exists. intros [x [Hx Heq]].
    apply N.eqb_eq in Heq as ->. by apply list_elem_of_In.
  - destruct s as [|c0 s']; [done|]. destruct (p c0); [|done].
    by exists [c0], s'.
  - apply IH1 in Hrun as (w1 & s1 & -> & Hrun & Hc1).
    apply IH2 in Hrun as (w2 & s2 & -> & Hk & Hc2).
    exists (w1 ++ w2), s2. split_and!; [by rewrite app_assoc|done|].
    simpl. rewrite orb_true_iff, elem_of_app. intros [?|?]; auto.
  - simpl. destruct (run r1 s k) as [out'|] eqn:H1.
    + injection Hrun as ->.
      apply IH1 in H1 as (w & s' & -> & Hk & Hc).
      exists w, s'. split_and!; [done..|].
      rewrite andb_true_iff. intros [? _]. auto.
    + apply IH2 in Hrun as (w & s' & -> & Hk & Hc).
      exists w, s'. split_and!; [done..|].
      rewrite andb_true_iff. intros [_ ?]. auto.
  - destruct (run r1 s k) as [out'|] eqn:H1.
    + injection Hrun as ->.
      apply IH1 in H1 as (w & s' & -> & Hk & _). by exists w, s'.
    + by exists [], s.
  - eapply rounds_consumes; [exact IH1|exact Hrun].
Qed.

Lemma match_prefix_suffix r s rest :
  match_prefix r s = Some rest → ∃ w, s = w ++ rest.
Proof.
  intros Hm. apply (run_consumes 0%N) in Hm as (w & s' & -> & Hk & _).
  injection Hk as ->. by exists w.
Qed.

Lemma match_prefix_absent c r s :
  requires c r = true → c ∉ s → match_prefix r s = None.
Proof.
  intros Hreq Hc. destruct (match_prefix r s) as [rest|] eqn:Hm; [|done].
  apply (run_consumes c) in Hm as (w & s' & -> & _ & Hw).
  exfalso. apply Hc, elem_of_app. left. by apply Hw.
Qed.

Lemma sub_from_skip r repl n s :
  sub_from r repl n s = sub_from r repl 0 (drop n s).
Proof.
  revert n. induction s as [|c s IH]; intros [|n]; try done.
  simpl. apply IH.
Qed.

Lemma sub_nil r repl : sub r repl [] = [].
Proof. done. Qed.

Lemma sub_cons_match r repl c s rest :
  match_prefix r (c :: s) = Some rest →
  (length rest < length (c :: s))%nat →
  sub r repl (c :: s) = repl ++ sub r repl rest.
Proof.
  intros Hm Hlen. unfold sub. cbn [sub_from]. rewrite Hm.
  apply Nat.ltb_lt in Hlen as Hlt. rewrite Hlt.
  rewrite sub_from_skip. do 2 f_equal.
  apply match_prefix_suffix in Hm as [w Hw].
  destruct w as [|c' w]; simpl in Hw.
  - subst rest. lia.
  - injection Hw as -> ->. cbn [length]. rewrite length_app.
    replace (S (length w + length rest) - length rest - 1)%nat
      with (length w) by lia.
    by rewrite drop_app_length.
Qed.

Lemma sub_cons_no_match r repl c s :
  match_prefix r (c :: s) = None →
  sub r repl (c :: s) = c :: sub r repl s.
Proof. intros Hm. unfold sub. cbn [sub_from]. by rewrite Hm. Qed.

(** A pattern that needs a character absent from the text changes
    nothing. *)
Lemma sub_absent c r repl s :
  requires c r = true → c ∉ s → sub r repl s = s.
Proof.
  intros Hreq. induction s as [|c0 s IH]; intros Hc; [done|].
  rewrite sub_cons_no_match by by apply (match_prefix_absent c).
  f_equal. apply IH. intros Hin. apply Hc. by right.
Qed.

(** Deleting the matches of a character class deletes its characters. *)
Lemma sub_chars p s :
  sub (Chars p) [] s = List.filter (λ c, negb (p c)) s.
Proof.
  induction s as [|c s IH]; [done|].
  cbn [List.filter]. destruct (p c) eqn:Hp; cbn [negb].
  - rewrite (sub_cons_match _ _ _ _ s); [done| |simpl; lia].
    unfold match_prefix. simpl. by rewrite Hp.
  - rewrite sub_cons_no_match; [by rewrite IH|].
    unfold match_prefix. simpl. by rewrite Hp.
Qed.

Lemma lstrip_length s : (length (lstrip s) ≤ length s)%nat.
Proof.
  induction s as [|c s IH]; simpl; [done|].
  destruct (isspace c); simpl; lia.
Qed.

(** A run of white space is matched to its end. *)
Lemma rounds_whitespace bound s :
  (length s ≤ bound)%nat →
  rounds (run (Chars isspace)) Some bound s
  = match s with
    | c :: s' => if isspace c then Some (lstrip s') else None
    | [] => None
    end.
Proof.
  revert s. induction bound as [|bound IH]; intros [|c s] Hlen;
    simpl in Hlen; try done; try lia.
  cbn [rounds run]. destruct (isspace c); [|done].
  assert ((length s <? length (c :: s))%nat = true) as ->
    by (apply Nat.ltb_lt; simpl; lia).
  rewrite IH by lia.
  destruct s as [|d s]; [done|]. simpl. by destruct (isspace d).
Qed.

Lemma sub_whitespace_space c s :
  isspace c = true →
  sub (Plus (Chars isspace)) [space] (c :: s)
  = space :: sub (Plus (Chars isspace)) [space] (lstrip s).
Proof.
  intros Hc.
  rewrite (sub_cons_match _ _ _ _ (lstrip s)); [done| |].
  - unfold match_prefix. cbn [run]. rewrite rounds_whitespace by done.
    by rewrite Hc.
  - pose proof (lstrip_length s). simpl. lia.
Qed.

Lemma sub_whitespace_other c s :
  isspace c = false →
  sub (Plus (Chars isspace)) [space] (c :: s)
  = c :: sub (Plus (Chars isspace)) [space] s.
Proof.
  intros Hc. apply sub_cons_no_match.
  unfold match_prefix. cbn [run]. rewrite rounds_whitespace by done.
  by rewrite Hc.
Qed.

End RegexFacts.

(** * Cleaned text *)
Section CleanTextFacts.
Import re.

Lemma word_char_not_space c : word_char c = true → isspace c = false.
Proof.
  intros Hw. apply not_true_iff_false. intros Hs. revert Hw Hs.
  unfold word_char, isspace, range.
  change (ch "a") with 97%N. change (ch "z") with 122%N.
  change (ch "A") with 65%N. change (ch "Z") with 90%N.
  change (ch "0") with 48%N. change (ch "9") with 57%N.
  rewrite !orb_true_iff, !andb_true_iff, !N.leb_le, !N.eqb_eq. lia.
Qed.

Lemma word_char_not_space_char c : word_char c = true → (c =? space)%N = false.
Proof.
  intros Hw. apply N.eqb_neq. intros ->. by vm_compute in Hw.
Qed.

Lemma lstrip_snoc s c :
  lstrip (s ++ [c])
  = match lstrip s with
    | [] => if isspace c then [] else [c]
    | t => t ++ [c]
    end.
Proof.
  induction s as [|d s IH]; simpl; [by destruct (isspace c)|].
  by destruct (isspace d).
Qed.

Lemma rstrip_cons c s :
  rstrip (c :: s)
  = match rstrip s with
    | [] => if isspace c then [] else [c]
    | t => c :: t
    end.
Proof.
  unfold rstrip. simpl. rewrite lstrip_snoc.
  destruct (lstrip (rev s)) as [|d t]; simpl; [by destruct (isspace c)|].
  rewrite rev_app_distr. simpl.
  destruct (rev t ++ [d]) eqn:Heq; [|done].
  by apply app_eq_nil in Heq as [_ ?].
Qed.

Lemma lstrip_head s :
  match lstrip s with
  | c :: _ => isspace c = false
  | [] => True
  end.
Proof.
  induction s as [|c s IH]; simpl; [done|].
  by destruct (isspace c) eqn:Hc.
Qed.

Lemma lstrip_Forall (P : char → Prop) s : Forall P s → Forall P (lstrip s).
Proof.
  induction 1 as [|c s Hc Hs IH]; simpl; [done|].
  destruct (isspace c); [done|by constructor].
Qed.

Lemma words_head s : words s → ∃ c s', s = c :: s' ∧ word_char c = true.
Proof. destruct 1; eauto. Qed.

Lemma words_lstrip s : words s → lstrip s = s.
Proof.
  intros (c & s' & -> & Hc)%words_head. simpl.
  by rewrite word_char_not_space.
Qed.

Lemma words_rstrip s : words s → rstrip s = s.
Proof.
  induction 1 as [c Hc|c s Hc Hs IH|c s Hc Hs IH].
  - rewrite rstrip_cons. change (rstrip []) with (@nil char).
    by rewrite word_char_not_space.
  - rewrite rstrip_cons, IH. by destruct Hs.
  - rewrite !rstrip_cons, IH. by destruct Hs.
Qed.

Lemma words_chars s :
  words s → Forall (λ c, c = space ∨ word_char c = true) s.
Proof.
  induction 1 as [c Hc|c s Hc Hs IH|c s Hc Hs IH].
  - constructor; [by right|constructor].
  - constructor; [by right|done].
  - constructor; [by right|]. constructor; [by left|done].
Qed.

Lemma words_sub_whitespace s :
  words s → sub (Plus (Chars isspace)) [space] s = s.
Proof.
  induction 1 as [c Hc|c s Hc Hs IH|c s Hc Hs IH].
  - by rewrite sub_whitespace_other by by apply word_char_not_space.
  - rewrite sub_whitespace_other by by apply word_char_not_space.
    by rewrite IH.
  - rewrite sub_whitespace_other by by apply word_char_not_space.
    rewrite sub_whitespace_space by done.
    by rewrite words_lstrip, IH.
Qed.

Lemma sub_whitespace_spaced s b :
  Forall (λ c, word_char c || isspace c = true) s →
  (b = true → match s with c :: _ => isspace c = false | [] => True end) →
  spaced b (sub (Plus (Chars isspace)) [space] s) = true.
Proof.
  remember (length s) as n eqn:Hn. revert s b Hn.
  induction n as [n IH] using lt_wf_ind. intros [|c s] b Hn Hkept Hb.
  - done.
  - apply Forall_cons in Hkept as [Hc Hkept].
    destruct (isspace c) eqn:Hsp.
    + destruct b; [by specialize (Hb eq_refl)|].
      rewrite sub_whitespace_space by done. simpl.
      pose proof (lstrip_length s). simpl in Hn.
      apply (IH (length (lstrip s))); [lia|done|by apply lstrip_Forall|].
      intros _. apply lstrip_head.
    + rewrite orb_false_r in Hc.
      rewrite sub_whitespace_other by done. simpl.
      rewrite word_char_not_space_char, Hc by done. simpl.
      simpl in Hn. apply (IH (length s)); [lia|done|done|done].
Qed.

Lemma spaced_rstrip s b :
  spaced b s = true →
  rstrip s = []
  ∨ words (rstrip s)
  ∨ ∃ r s', rstrip s = space :: r ∧ words r ∧ s = space :: s'.
Proof.
  revert b. induction s as [|c s IH]; intros b Hs; [by left|].
  simpl in Hs. rewrite rstrip_cons.
  destruct (N.eqb_spec c space) as [->|Hne].
  - apply andb_true_iff in Hs as [_ Hs].
    destruct (IH true Hs) as [->|[Hw|(r & s' & _ & _ & ->)]].
    + by left.
    + destruct (rstrip s) as [|d t] eqn:Heq; [inversion Hw|].
      right. right. by exists (d :: t), s.
    + done.
  - apply andb_true_iff in Hs as [Hc Hs].
    destruct (IH false Hs) as [->|[Hw|(r & s' & -> & Hw & _)]].
    + right. left. rewrite word_char_not_space by done. by apply words_last.
    + destruct (rstrip s) as [|d t] eqn:Heq; [inversion Hw|].
      right. left. by apply words_char.
    + right. left. by apply words_space.
Qed.

Lemma lstrip_spaced s b :
  spaced b s = true → ∃ b', spaced b' (lstrip s) = true.
Proof.
  revert b. induction s as [|c s IH]; intros b Hs; [by exists b|].
  simpl. destruct (isspace c); [|by exists b].
  simpl in Hs. destruct (c =? space)%N;
    apply andb_true_iff in Hs as [_ Hs]; eauto.
Qed.

Lemma strip_spaced s b :
  spaced b s = true → strip s = [] ∨ words (strip s).
Proof.
  intros [b' Hs]%lstrip_spaced. unfold strip.
  destruct (spaced_rstrip _ _ Hs) as [?|[?|(r & s' & _ & _ & Heq)]];
    [by left|by right|].
  pose proof (lstrip_head s) as Hhead. by rewrite Heq in Hhead.
Qed.

Lemma words_absent c s :
  words s → c ≠ space → word_char c = false → c ∉ s.
Proof.
  intros Hw Hne Hc Hin. apply words_chars in Hw.
  rewrite Forall_forall in Hw. destruct (Hw c Hin); congruence.
Qed.

Lemma filter_all (f : char → bool) (s : str) :
  Forall (λ c, f c = true) s → List.filter f s = s.
Proof.
  induction 1 as [|c s Hc Hs IH]; simpl; [done|]. by rewrite Hc, IH.
Qed.

(** The four substitutions and the final [strip], in the order of
    [clean_text]. *)
Lemma clean_steps_tidy t :
  let cleaned :=
    strip (sub xueqiu_comment_analyzer.whitespace_run (u " ")
             (sub xueqiu_comment_analyzer.special_char []
                (sub xueqiu_comment_analyzer.url_pattern []
                   (sub xueqiu_comment_analyzer.html_tag [] t)))) in
  cleaned = [] ∨ words cleaned.
Proof.
  intros cleaned. subst cleaned. apply (strip_spaced _ false).
  unfold xueqiu_comment_analyzer.whitespace_run. change (u " ") with [space].
  apply sub_whitespace_spaced; [|done].
  unfold xueqiu_comment_analyzer.special_char. rewrite sub_chars.
  apply Forall_forall. intros c Hin.
  apply list_elem_of_In, filter_In in Hin as [_ Hc].
  by rewrite negb_involutive in Hc.
Qed.

Lemma clean_steps_words s :
  words s →
  strip (sub xueqiu_comment_analyzer.whitespace_run (u " ")
           (sub xueqiu_comment_analyzer.special_char []
              (sub xueqiu_comment_analyzer.url_pattern []
                 (sub xueqiu_comment_analyzer.html_tag [] s)))) = s.
Proof.
  intros Hw.
  rewrite (sub_absent (ch "<") xueqiu_comment_analyzer.html_tag);
    [|by vm_compute|by apply words_absent].
  rewrite (sub_absent (ch ":") xueqiu_comment_analyzer.url_pattern);
    [|by vm_compute|by apply words_absent].
  unfold xueqiu_comment_analyzer.special_char. rewrite sub_chars.
  rewrite filter_all.
  - unfold xueqiu_comment_analyzer.whitespace_run.
    change (u " ") with [space]. rewrite words_sub_whitespace by done.
    unfold strip. by rewrite words_lstrip, words_rstrip.
  - eapply Forall_impl; [by apply words_chars|].
    intros c [->|Hc]; rewrite negb_involutive; [by vm_compute|].
    fold (word_char c). by rewrite Hc.
Qed.

Lemma clean_text_tidy (text : option str) :
  xueqiu_comment_analyzer.clean_text text = []
  ∨ words (xueqiu_comment_analyzer.clean_text text).
Proof.
  destruct text as [[|c t]|]; [by left| |by left]. apply clean_steps_tidy.
Qed.

Lemma clean_text_words (s : str) :
  words s → xueqiu_comment_analyzer.clean_text (Some s) = s.
Proof.
  intros Hw. destruct (words_head _ Hw) as (c & t & -> & _).
  by apply clean_steps_words.
Qed.

Lemma clean_text_same :
  xueqiu_simple_analyzer.clean_text = xueqiu_comment_analyzer.clean_text.
Proof. done. Qed.

(** C6.  [clean_text] is a total function of its argument: it answers every
    string and [None], the empty string and [None] yield the empty string,
    and cleaning a cleaned text changes nothing,
    [clean_text(clean_text(t)) == clean_text(t)].  What it returns is empty
    or made of runs of CJK ideographs, ASCII letters and digits separated by
    single spaces.  This holds for the function of
    xueqiu_comment_analyzer.py and for that of xueqiu_simple_analyzer.py. *)
Theorem clean_text_idempotent (text : option str) :
  xueqiu_comment_analyzer.clean_text
    (Some (xueqiu_comment_analyzer.clean_text text))
  = xueqiu_comment_analyzer.clean_text text
  ∧ xueqiu_simple_analyzer.clean_text
      (Some (xueqiu_simple_analyzer.clean_text text))
    = xueqiu_simple_analyzer.clean_text text
  ∧ xueqiu_comment_analyzer.clean_text None = []
  ∧ xueqiu_comment_analyzer.clean_text (Some []) = []
  ∧ xueqiu_simple_analyzer.clean_text None = []
  ∧ xueqiu_simple_analyzer.clean_text (Some []) = []
  ∧ (xueqiu_comment_analyzer.clean_text text = []
     ∨ words (xueqiu_comment_analyzer.clean_text text)).
Proof.
  rewrite clean_text_same.
  assert (xueqiu_comment_analyzer.clean_text
            (Some (xueqiu_comment_analyzer.clean_text text))
          = xueqiu_comment_analyzer.clean_text text) as Hidem.
  { destruct (clean_text_tidy text) as [->|Hw]; [done|].
    by apply clean_text_words. }
  split_and!; try done. apply clean_text_tidy.
Qed.

End CleanTextFacts.

(** * Sentiment *)
Section SentimentFacts.
Context `{StrLower}.
Import xueqiu_simple_analyzer.

Lemma count_present_occurring (words : list str) (text : str) :
  occurring text words (count_present words text).
Proof.
  unfold count_present. induction words as [|word words IH]; simpl.
  - constructor.
  - destruct (str_in word text) eqn:Hin.
    + replace (len (word :: List.filter (λ w, str_in w text) words))
        with (len (List.filter (λ w, str_in w text) words) + 1)
        by (unfold len; simpl; lia).
      constructor; [by apply str_in_spec|done].
    + constructor; [|done]. rewrite <- str_in_spec. by rewrite Hin.
Qed.

Lemma occurring_unique (text : str) (words : list str) (n m : Z) :
  occurring text words n → occurring text words m → n = m.
Proof.
  intros Hn. revert m.
  induction Hn as [|word words n Hw Hn IH|word words n Hw Hn IH];
    intros m Hm; inversion Hm; subst; try done.
  - f_equal. by apply IH.
  - by apply IH.
Qed.

(** C8, as the code has it.  [analyze_sentiment] counts how many of its
    positive keywords and how many of its negative keywords occur in the
    lower-cased text, a keyword counting once however often it occurs, and
    compares the two counts: more positive ones give the label of
    Positive, more negative ones the label of Negative, and equal counts
    that of Neutral. *)
Theorem analyze_sentiment_compares_counts (text : str) :
  ∃ positive negative,
    occurring (lower text) positive_words positive
    ∧ occurring (lower text) negative_words negative
    ∧ analyze_sentiment text
      = match positive ?= negative with
        | Gt => u "乐观"
        | Lt => u "悲观"
        | Eq => u "中性"
        end.
Proof.
  exists (count_present positive_words (lower text)),
         (count_present negative_words (lower text)).
  split_and!; [apply count_present_occurring..|].
  unfold analyze_sentiment.
  set (positive := count_present positive_words (lower text)).
  set (negative := count_present negative_words (lower text)).
  destruct (Z.compare_spec positive negative) as [Heq|Hlt|Hgt].
  - rewrite Heq, Z.ltb_irrefl. done.
  - apply Z.ltb_lt in Hlt as Hlt'. rewrite Hlt'.
    assert ((negative <? positive) = false) as -> by (apply Z.ltb_ge; lia).
    done.
  - apply Z.ltb_lt in Hgt as Hgt'. by rewrite Hgt'.
Qed.

End SentimentFacts.

(** A keyword that occurs several times counts once, and a keyword inside
    another one counts too. *)
Lemma analyze_sentiment_examples :
  @xueqiu_simple_analyzer.analyze_sentiment ascii_lower (u "涨涨跌")
    = u "中性"
  ∧ @xueqiu_simple_analyzer.analyze_sentiment ascii_lower (u "不好")
    = u "中性"
  ∧ @xueqiu_simple_analyzer.analyze_sentiment ascii_lower (u "利好 突破 风险")
    = u "乐观"
  ∧ @xueqiu_simple_analyzer.analyze_sentiment ascii_lower (u "破位 割肉")
    = u "悲观"
  ∧ @xueqiu_simple_analyzer.analyze_sentiment ascii_lower (u "") = u "中性".
Proof. split_and!; vm_compute; reflexivity. Qed.

(** C8 as stated fails, for the counts are not counts of occurrences.  In
    涨涨跌 a positive keyword occurs twice and a negative one once, yet the
    answer is Neutral; in 跌跌跌 涨 好 a negative keyword occurs three times
    and positive ones twice, yet the answer is Positive. *)
Lemma analyze_sentiment_counts_keywords_once :
  total_occurrences xueqiu_simple_analyzer.positive_words
    (@lower ascii_lower (u "涨涨跌")) = 2
  ∧ total_occurrences xueqiu_simple_analyzer.negative_words
      (@lower ascii_lower (u "涨涨跌")) = 1
  ∧ @specified_sentiment ascii_lower (u "涨涨跌") = u "乐观"
  ∧ @xueqiu_simple_analyzer.analyze_sentiment ascii_lower (u "涨涨跌")
    = u "中性"
  ∧ total_occurrences xueqiu_simple_analyzer.positive_words
      (@lower ascii_lower (u "跌跌跌 涨 好")) = 2
  ∧ total_occurrences xueqiu_simple_analyzer.negative_words
      (@lower ascii_lower (u "跌跌跌 涨 好")) = 3
  ∧ @specified_sentiment ascii_lower (u "跌跌跌 涨 好") = u "悲观"
  ∧ @xueqiu_simple_analyzer.analyze_sentiment ascii_lower (u "跌跌跌 涨 好")
    = u "乐观".
Proof. split_and!; vm_compute; reflexivity. Qed.

(** * More on news_digest.py *)
Section DigestQueries.
Import news_digest.

Lemma members_complete (c : NewsCategory) : c ∈ members.
Proof. apply list_elem_of_In. destruct c; simpl; tauto. Qed.

Lemma members_NoDup : NoDup members.
Proof.
  unfold members. repeat (apply NoDup_cons; split;
    [rewrite ?elem_of_cons, elem_of_nil; intros Hin;
     repeat (destruct Hin as [Hin|Hin]; [discriminate|]); done|]).
  apply NoDup_nil_2.
Qed.

Lemma by_category_cons (x : NewsItem) (l : list NewsItem)
    (cs : list NewsCategory) :
  NoDup cs →
  concat ((λ c, filter (λ item, category item = c) (x :: l)) <$> cs)
  ≡ₚ (if decide (category x ∈ cs) then [x] else [])
     ++ concat ((λ c, filter (λ item, category item = c) l) <$> cs).
Proof.
  induction 1 as [|c cs Hc Hcs IH]; [done|].
  rewrite !fmap_cons. cbn [concat]. rewrite IH, filter_cons.
  destruct (decide (category x = c)) as [Heq|Hne];
    destruct (decide (category x ∈ cs)) as [Hin|Hout];
    destruct (decide (category x ∈ c :: cs)) as [Hin'|Hout'];
    try (exfalso; rewrite elem_of_cons in *; intuition congruence).
  - done.
  - simpl. by rewrite Permutation_middle.
  - done.
Qed.

(** The lists of the categories split the stored items: together they are
    a rearrangement of the items, each item being in the list of its own
    category and in no other, and their sizes add up to the number of
    items. *)
Theorem categories_partition (self : NewsDigest) :
  concat (get_news_by_category self <$> members) ≡ₚ news_items self
  ∧ (∀ item c,
       item ∈ get_news_by_category self c
       ↔ item ∈ news_items self ∧ category item = c)
  ∧ foldr Z.add 0 ((λ c, len (get_news_by_category self c)) <$> members)
    = len (news_items self).
Proof.
  assert (concat (get_news_by_category self <$> members)
          ≡ₚ news_items self) as Hperm.
  { unfold get_news_by_category.
    induction (news_items self) as [|x l IH].
    - unfold members. simpl. done.
    - rewrite (by_category_cons x l members members_NoDup).
      rewrite decide_True by apply members_complete.
      simpl. by rewrite IH. }
  split_and!.
  - done.
  - intros item c. unfold get_news_by_category.
    rewrite list_elem_of_filter. tauto.
  - apply Permutation_length in Hperm. unfold len. rewrite <- Hperm.
    generalize members. intros cs.
    induction cs as [|c cs IH]; [done|].
    rewrite !fmap_cons. cbn [foldr concat]. rewrite length_app, IH. lia.
Qed.

(** Adding an item extends the list of its category by that item, at the
    end, and leaves the list of every other category as it was. *)
Theorem add_news_by_category (self : NewsDigest) (title summary : str)
    (category : NewsCategory) (source : str)
    (url publish_time : option str) (importance : option Z)
    (c : NewsCategory) :
  get_news_by_category
    (add_news self title summary category source url publish_time importance)
    c
  = get_news_by_category self c
    ++ (if decide (category = c)
        then [ {| title := title; summary := summary; category := category;
                  source := source; url := default [] url;
                  publish_time := default [] publish_time;
                  importance := default 1 importance |} ]
        else []).
Proof.
  unfold get_news_by_category, add_news. simpl.
  rewrite filter_app, filter_cons, filter_nil. simpl. done.
Qed.

(** A bound of zero gives no item, and a negative bound [-k] does not fail:
    it gives the ranking of all items without its last [k] items. *)
Theorem get_top_news_negative_bound (self : NewsDigest) (k : Z) :
  0 < k →
  get_top_news self 0 = []
  ∧ get_top_news self (- k)
    = take (length (news_items self) - Z.to_nat k)
        (get_top_news self (len (news_items self)))
  ∧ len (get_top_news self (- k)) = Z.max 0 (len (news_items self) - k).
Proof.
  intros Hk.
  assert (length (sorted importance true (news_items self))
          = length (news_items self)) as Hlen
    by apply Permutation_length, sorted_reverse_perm.
  assert (get_top_news self (- k)
          = take (length (news_items self) - Z.to_nat k)
              (sorted importance true (news_items self))) as Hneg.
  { unfold get_top_news, slice_to.
    assert ((- k <? 0) = true) as -> by (apply Z.ltb_lt; lia).
    f_equal. unfold len. rewrite Hlen. lia. }
  split_and!.
  - done.
  - rewrite Hneg. f_equal. unfold get_top_news, slice_to.
    assert ((len (news_items self) <? 0) = false) as ->
      by (apply Z.ltb_ge; unfold len; lia).
    rewrite take_ge; [done|]. unfold len. rewrite Hlen. lia.
  - rewrite Hneg. unfold len. rewrite length_take, Hlen. lia.
Qed.

Lemma get_top_news_negative_bound_witness :
  0 < 2
  ∧ get_top_news sample_digest (Z.opp 2)
    = [sample_item 2 5; sample_item 3 5; sample_item 5 5].
Proof.
  split; [lia|].
  rewrite (proj1 (proj2 (get_top_news_negative_bound sample_digest 2
                           ltac:(lia)))).
  reflexivity.
Defined.

(** The items that [get_top_news] returns are at least as important as
    every item it leaves out. *)
Theorem get_top_news_dominates (self : NewsDigest) (n : Z) :
  0 <= n →
  ∃ rest,
    get_top_news self n ++ rest ≡ₚ news_items self
    ∧ ∀ x y, x ∈ get_top_news self n → y ∈ rest →
             importance y <= importance x.
Proof.
  intros Hn.
  exists (drop (Z.to_nat n) (sorted importance true (news_items self))).
  assert (get_top_news self n
          = take (Z.to_nat n) (sorted importance true (news_items self)))
    as ->.
  { unfold get_top_news, slice_to.
    destruct (n <? 0) eqn:Hneg; [apply Z.ltb_lt in Hneg; lia|done]. }
  split.
  - rewrite take_drop. apply sorted_reverse_perm.
  - pose proof (sorted_reverse_descending importance (news_items self))
      as Hsorted.
    rewrite <- (take_drop (Z.to_nat n)) in Hsorted.
    apply StronglySorted_app in Hsorted as [Hcross _].
    intros x y Hx Hy. by apply Hcross.
Qed.

Lemma get_top_news_dominates_witness :
  0 <= 3
  ∧ ∃ rest,
      get_top_news sample_digest 3 ++ rest ≡ₚ news_items sample_digest
      ∧ ∀ x y, x ∈ get_top_news sample_digest 3 → y ∈ rest →
               importance y <= importance x.
Proof.
  split; [lia|]. apply (get_top_news_dominates sample_digest 3). lia.
Defined.

End DigestQueries.

(** * The report of news_digest.py *)
Section DigestReport.
Import news_digest.

Lemma occurs_in_refl (s : str) : occurs_in s s.
Proof. exists [], []. by rewrite app_nil_r. Qed.

Lemma occurs_in_app_l (x a b : str) : occurs_in x a → occurs_in x (a ++ b).
Proof.
  intros (pre & post & ->). exists pre, (post ++ b).
  by rewrite <- !app_assoc.
Qed.

Lemma occurs_in_app_r (x a b : str) : occurs_in x b → occurs_in x (a ++ b).
Proof.
  intros (pre & post & ->). exists (a ++ pre), post.
  by rewrite <- !app_assoc.
Qed.

Lemma fold_sections (f : NewsCategory → str) (cs : list NewsCategory)
    (digest : str) :
  fold_left (λ digest c, digest ++ f c) cs digest
  = digest ++ concat (f <$> cs).
Proof.
  revert digest. induction cs as [|c cs IH]; intros digest; simpl.
  - by rewrite app_nil_r.
  - by rewrite IH, app_assoc.
Qed.

Lemma occurs_in_concat (x s : str) (l : list str) :
  s ∈ l → occurs_in x s → occurs_in x (concat l).
Proof.
  induction 1 as [s l|s s' l Hin IH]; intros Hx; simpl.
  - by apply occurs_in_app_l.
  - by apply occurs_in_app_r, IH.
Qed.

Lemma entries_occurs (item : NewsItem) (l : list NewsItem) (i : Z) :
  item ∈ l →
  ∃ j, i <= j < i + len l ∧ occurs_in (entry j item) (entries i l).
Proof.
  intros Hin. revert i.
  induction Hin as [item l|item x l Hin IH]; intros i;
    cbn [entries]; unfold len; cbn [length].
  - exists i. split; [lia|]. apply occurs_in_app_l, occurs_in_refl.
  - destruct (IH (i + 1)) as (j & Hj & Hocc). unfold len in Hj.
    exists j. split; [lia|]. by apply occurs_in_app_r.
Qed.

(** No stored item is missing from the report: the three lines of its
    entry, numbered with its position in the list of its category, occur
    in the report. *)
Theorem generate_digest_shows_every_item (self : NewsDigest) (now : str)
    (item : NewsItem) :
  item ∈ news_items self →
  ∃ j, 1 <= j <= len (news_items self)
       ∧ occurs_in (entry j item) (generate_digest self now)
       ∧ occurs_in (title item) (entry j item)
       ∧ occurs_in (summary item) (entry j item)
       ∧ occurs_in (source item) (entry j item).
Proof.
  intros Hin.
  assert (item ∈ get_news_by_category self (category item)) as Hcat.
  { unfold get_news_by_category. by apply list_elem_of_filter. }
  destruct (entries_occurs item _ 1 Hcat) as (j & Hj & Hocc).
  assert (len (get_news_by_category self (category item))
          <= len (news_items self)) as Hle.
  { unfold len, get_news_by_category.
    pose proof (length_filter (λ x, category x = category item)
                  (news_items self)). lia. }
  exists j. split_and!; [lia|lia| | | |].
  - unfold generate_digest.
    destruct (news_items self) as [|x l] eqn:Hitems;
      [by apply elem_of_nil in Hin|].
    rewrite fold_sections.
    apply occurs_in_app_l, occurs_in_app_l, occurs_in_app_l, occurs_in_app_r.
    apply (occurs_in_concat _ (category_section self (category item)));
      [apply list_elem_of_fmap; exists (category item); split;
       [done|apply members_complete]|].
    unfold category_section.
    cbv zeta.
    destruct (get_news_by_category self (category item)) as [|y l'];
      [by apply elem_of_nil in Hcat|].
    by do 5 apply occurs_in_app_r.
  - unfold entry. apply occurs_in_app_r, occurs_in_app_r, occurs_in_app_l,
      occurs_in_refl.
  - unfold entry. do 5 apply occurs_in_app_r.
    apply occurs_in_app_l, occurs_in_refl.
  - unfold entry. do 8 apply occurs_in_app_r.
    apply occurs_in_app_l, occurs_in_refl.
Qed.

Lemma generate_digest_shows_every_item_witness :
  sample_item 4 2 ∈ news_items sample_digest
  ∧ ∃ j, 1 <= j <= len (news_items sample_digest)
         ∧ occurs_in (entry j (sample_item 4 2))
             (generate_digest sample_digest (u "2024-01-01 08:00:00"))
         ∧ occurs_in (title (sample_item 4 2)) (entry j (sample_item 4 2))
         ∧ occurs_in (summary (sample_item 4 2)) (entry j (sample_item 4 2))
         ∧ occurs_in (source (sample_item 4 2)) (entry j (sample_item 4 2)).
Proof.
  assert (sample_item 4 2 ∈ news_items sample_digest) as Hin.
  { unfold sample_digest. cbn [news_items]. do 3 right. left. }
  split; [exact Hin|].
  exact (generate_digest_shows_every_item sample_digest
           (u "2024-01-01 08:00:00") (sample_item 4 2) Hin).
Defined.

(** The report of a digest that holds items always has the header with the
    date of the digest, then the headline section with the three most
    important items (all of them when there are fewer), then the sections
    of the categories, and it ends with the number of stored items and
    the time of generation. *)
Theorem generate_digest_layout (self : NewsDigest) (now : str) :
  news_items self ≠ [] →
  get_top_news self 3 ≠ []
  ∧ len (get_top_news self 3) = Z.min 3 (len (news_items self))
  ∧ generate_digest self now
    = u "📰 中国今日新闻早报 - " ++ today self ++ nl
      ++ str_mul (u "=") 50 ++ nl ++ nl
      ++ u "🔥 头条新闻" ++ nl ++ str_mul (u "-") 20 ++ nl
      ++ entries 1 (get_top_news self 3)
      ++ concat (category_section self <$> members)
      ++ str_mul (u "=") 50 ++ nl
      ++ u "📊 今日共收集 " ++ str_of_int (len (news_items self))
      ++ u " 条新闻" ++ nl
      ++ u "⏰ 生成时间：" ++ now.
Proof.
  intros Hne.
  assert (len (get_top_news self 3) = Z.min 3 (len (news_items self)))
    as Hlen.
  { unfold get_top_news, slice_to, len. cbn [Z.ltb Z.compare].
    rewrite length_take,
      (Permutation_length (sorted_reverse_perm importance (news_items self))).
    lia. }
  assert (get_top_news self 3 ≠ []) as Htop.
  { intros Hnil. rewrite Hnil in Hlen. unfold len in Hlen. simpl in Hlen.
    destruct (news_items self); [done|]. simpl in Hlen. lia. }
  split_and!; [done|done|].
  unfold generate_digest.
  destruct (news_items self) as [|x l] eqn:Hitems; [done|].
  destruct (get_top_news self 3) as [|y top] eqn:Htop3; [done|].
  rewrite fold_sections. by rewrite <- !app_assoc.
Qed.

Lemma generate_digest_layout_witness :
  news_items sample_digest ≠ []
  ∧ len (get_top_news sample_digest 3) = Z.min 3 (len (news_items sample_digest)).
Proof.
  assert (news_items sample_digest ≠ []) as Hne by done.
  split; [exact Hne|].
  exact (proj1 (proj2 (generate_digest_layout sample_digest [] Hne))).
Defined.

End DigestReport.

(** * The filter and the pipeline of news_manager.py *)
Section PipelineFacts.
Context `{StrLower}.
Import news_digest news_manager.

Lemma any_str_in_false (keywords : list str) (text : str) :
  any (λ keyword, str_in keyword text) keywords = false
  ↔ Forall (λ keyword, ¬ occurs_in keyword text) keywords.
Proof.
  rewrite <- not_true_iff_false, any_str_in_spec.
  rewrite <- Forall_Exists_neg. done.
Qed.

Lemma any_in_title_present (news : gmap string str) (t : str)
    (title_blacklist : list str) :
  news !! "title" = Some t →
  any_in_title news title_blacklist
  = Ok (any (λ keyword, str_in keyword t) title_blacklist).
Proof.
  intros Ht. induction title_blacklist as [|keyword rest IH]; simpl; [done|].
  unfold getitem. rewrite Ht. simpl.
  destruct (str_in keyword t); [done|]. by rewrite IH.
Qed.

Lemma filter_news_present (cfg : config) (news : gmap string str)
    (t s : str) :
  news !! "title" = Some t → news !! "summary" = Some s →
  filter_news cfg news
  = Ok (negb (any (λ keyword, str_in keyword t)
                  (default [] (flt_title_blacklist (filters_of cfg))))
        && negb (any (λ keyword, str_in keyword (get news "source" []))
                     (default [] (flt_source_blacklist (filters_of cfg))))
        && ((default 5 (flt_min_title_length (filters_of cfg)) <=? len t)
            && (len t <=? default 100 (flt_max_title_length (filters_of cfg))))
        && ((default 10 (flt_min_summary_length (filters_of cfg)) <=? len s)
            && (len s
                <=? default 500 (flt_max_summary_length (filters_of cfg))))).
Proof.
  intros Ht Hs. unfold filter_news, filters_of.
  rewrite (any_in_title_present news t) by done. simpl.
  destruct (any _ (default [] (flt_title_blacklist _))); [done|].
  destruct (any _ (default [] (flt_source_blacklist _))); [done|].
  unfold getitem. rewrite Ht, Hs. simpl.
  destruct (_ && _); [|done]. simpl.
  by destruct (_ && _).
Qed.

(** A record with a title and a summary never makes the filter raise, and
    the filter accepts it exactly when no keyword of the title blacklist
    occurs in its title, no keyword of the source blacklist occurs in its
    source (the empty string when the record has none), and the lengths of
    title and summary are within the configured bounds, which are 5 to 100
    and 10 to 500 where the configuration sets none. *)
Theorem filter_news_accepts (cfg : config) (news : gmap string str)
    (t s : str) :
  news !! "title" = Some t → news !! "summary" = Some s →
  ∃ accepted, filter_news cfg news = Ok accepted
    ∧ (accepted = true ↔
         Forall (λ keyword, ¬ occurs_in keyword t)
                (default [] (flt_title_blacklist (filters_of cfg)))
         ∧ Forall (λ keyword, ¬ occurs_in keyword (get news "source" []))
                  (default [] (flt_source_blacklist (filters_of cfg)))
         ∧ default 5 (flt_min_title_length (filters_of cfg)) <= len t
           <= default 100 (flt_max_title_length (filters_of cfg))
         ∧ default 10 (flt_min_summary_length (filters_of cfg)) <= len s
           <= default 500 (flt_max_summary_length (filters_of cfg))).
Proof.
  intros Ht Hs. eexists. split; [by apply filter_news_present|].
  rewrite !andb_true_iff, !negb_true_iff, !any_str_in_false, !Z.leb_le.
  tauto.
Qed.

Lemma for_each_app {S A : Type} (body : A → S → outcome S)
    (l1 l2 : list A) (s : S) :
  for_each body (l1 ++ l2) s
  = match for_each body l1 s with
    | (s', None) => for_each body l2 s'
    | failed => failed
    end.
Proof.
  revert s. induction l1 as [|x l1 IH]; intros s; simpl; [done|].
  destruct (body x s) as [s' [e|]]; [done|]. apply IH.
Qed.

Lemma manager_importance_values (cfg : config) (title summary source : str) :
  2 <= determine_importance cfg title summary source <= 5.
Proof.
  unfold determine_importance.
  repeat (match goal with |- context [if ?b then _ else _] =>
            destruct b end); lia.
Qed.

Lemma filter_news_raises (cfg : config) (news : gmap string str) (e : exn) :
  filter_news cfg news = Raise e →
  e = KeyError "title" ∨ e = KeyError "summary".
Proof.
  destruct (news !! "title") as [t|] eqn:Ht.
  - destruct (news !! "summary") as [s|] eqn:Hs.
    + rewrite (filter_news_present cfg news t s) by done. done.
    + unfold filter_news.
      rewrite (any_in_title_present news t) by done. simpl.
      destruct (any _ (default [] (flt_title_blacklist _))); [done|].
      destruct (any _ (default [] (flt_source_blacklist _))); [done|].
      unfold getitem. rewrite Ht, Hs. simpl.
      destruct (negb _); [done|]. intros [= <-]. by right.
  - destruct (filter_news_missing_title cfg news Ht) as [-> | ->];
      [|done]. intros [= <-]. by left.
Qed.

(** What the body of the loop does with a record the filter accepts. *)
Lemma process_news_accepted (cfg : config) (source_name : str)
    (news : gmap string str) (digest : NewsDigest) :
  filter_news cfg news = Ok true →
  ∃ t s, news !! "title" = Some t ∧ news !! "summary" = Some s
    ∧ process_news cfg source_name news digest
      = Ok (add_news digest t s (auto_categorize cfg t s) source_name
              (Some (get news "url" [])) (Some (get news "publish_time" []))
              (Some (determine_importance cfg t s source_name))).
Proof.
  intros Hacc. unfold process_news. rewrite Hacc. simpl.
  destruct (news !! "title") as [t|] eqn:Ht.
  - destruct (news !! "summary") as [s|] eqn:Hs.
    + exists t, s. unfold getitem. rewrite Ht, Hs. done.
    + exfalso. revert Hacc. unfold filter_news.
      rewrite (any_in_title_present news t) by done. simpl.
      destruct (any _ (default [] (flt_title_blacklist _))); [done|].
      destruct (any _ (default [] (flt_source_blacklist _))); [done|].
      unfold getitem. rewrite Ht, Hs. simpl. by destruct (negb _).
  - exfalso. by destruct (filter_news_missing_title cfg news Ht) as [Hf|Hf];
      rewrite Hf in Hacc.
Qed.

Lemma process_news_rejected (cfg : config) (source_name : str)
    (news : gmap string str) (digest : NewsDigest) :
  filter_news cfg news = Ok false →
  process_news cfg source_name news digest = Ok digest.
Proof. intros Hrej. unfold process_news. by rewrite Hrej. Qed.

Lemma process_news_failed (cfg : config) (source_name : str)
    (news : gmap string str) (digest : NewsDigest) (e : exn) :
  filter_news cfg news = Raise e →
  process_news cfg source_name news digest = Raise e.
Proof. intros Hraise. unfold process_news. by rewrite Hraise. Qed.

Lemma digest_eta (digest : NewsDigest) :
  digest = {| news_items := news_items digest ++ []; today := today digest |}.
Proof. destruct digest. simpl. by rewrite app_nil_r. Qed.

(** Whatever the records are, [process_news_list] only appends to the
    digest: the stored items stay in place and the date is kept; it adds at
    most one item per record, each under the name of the feed and with an
    importance from 2 to 5; and the only exceptions that leave it are the
    [KeyError]s for a missing title or summary. *)
Theorem process_news_list_extends_digest (cfg : config) (digest : NewsDigest)
    (news_list : list (gmap string str)) (source_name : str) :
  ∃ added,
    (process_news_list cfg digest news_list source_name).1
    = {| news_items := news_items digest ++ added; today := today digest |}
    ∧ len added <= len news_list
    ∧ Forall (λ item, source item = source_name
                      ∧ 2 <= importance item <= 5) added
    ∧ (process_news_list cfg digest news_list source_name).2
      ∈ [None; Some (KeyError "title"); Some (KeyError "summary")].
Proof.
  unfold process_news_list. revert digest.
  induction news_list as [|news rest IH]; intros digest.
  - exists []. simpl. split_and!; [apply digest_eta|done|done|left].
  - cbn [for_each].
    destruct (filter_news cfg news) as [[|]|e] eqn:Hf.
    + destruct (process_news_accepted cfg source_name news digest Hf)
        as (t & s & _ & _ & ->).
      cbn [commit].
      destruct (IH (add_news digest t s (auto_categorize cfg t s) source_name
                      (Some (get news "url" []))
                      (Some (get news "publish_time" []))
                      (Some (determine_importance cfg t s source_name))))
        as (added & Hfst & Hlen & Hall & Hexn).
      eexists (_ :: added). split_and!.
      * rewrite Hfst. cbn [add_news news_items today].
        by rewrite <- app_assoc.
      * unfold len in *. cbn [length]. lia.
      * constructor; [|done]. cbn [source importance default]. split; [done|].
        apply manager_importance_values.
      * done.
    + rewrite (process_news_rejected cfg source_name news digest Hf).
      cbn [commit].
      destruct (IH digest) as (added & Hfst & Hlen & Hall & Hexn).
      exists added. split_and!; [done| |done|done].
      unfold len in *. cbn [length]. lia.
    + rewrite (process_news_failed cfg source_name news digest e Hf).
      cbn [commit fst snd]. exists []. split_and!.
      * apply digest_eta.
      * unfold len. cbn [length]. lia.
      * done.
      * destruct (filter_news_raises cfg news e Hf) as [-> | ->];
          [right; left|right; right; left].
Qed.

(** On records that all have a title and a summary [process_news_list]
    raises nothing and is the filter followed by a map: the items it appends
    are, in the order of the feed, those of the records the filter accepts,
    with the title, summary, address and time of the record (the empty
    string for an address or a time the record lacks), the name of the feed
    as source whatever source the record names, and the category and the
    importance the classifier and the scorer give for these. *)
Theorem process_news_list_filters_and_maps (cfg : config)
    (digest : NewsDigest) (news_list : list (gmap string str))
    (source_name : str) :
  Forall has_text news_list →
  ∃ added,
    process_news_list cfg digest news_list source_name
    = ({| news_items := news_items digest ++ added; today := today digest |},
       None)
    ∧ (λ item, (title item, summary item, url item, publish_time item))
        <$> added
      = (λ news : gmap string str,
           (get news "title" [], get news "summary" [],
            get news "url" [], get news "publish_time" []))
          <$> filter (λ news, accepted_by cfg news) news_list
    ∧ Forall (λ item,
                source item = source_name
                ∧ category item
                  = auto_categorize cfg (title item) (summary item)
                ∧ importance item
                  = determine_importance cfg (title item) (summary item)
                      source_name) added.
Proof.
  unfold process_news_list. intros Hall. revert digest.
  induction Hall as [|news rest [Ht Hs] _ IH]; intros digest.
  - exists []. simpl. split_and!; [by rewrite <- digest_eta|done|done].
  - cbn [for_each].
    destruct (filter_news_complete_record cfg news Ht Hs) as [[|] Hf].
    + destruct (process_news_accepted cfg source_name news digest Hf)
        as (t & s & Hnt & Hns & ->).
      cbn [commit].
      destruct (IH (add_news digest t s (auto_categorize cfg t s) source_name
                      (Some (get news "url" []))
                      (Some (get news "publish_time" []))
                      (Some (determine_importance cfg t s source_name))))
        as (added & -> & Hfields & Hitems).
      eexists (_ :: added). split_and!.
      * cbn [add_news news_items today]. by rewrite <- app_assoc.
      * rewrite filter_cons_True by (unfold accepted_by; by rewrite Hf).
        rewrite !fmap_cons, Hfields. unfold get. cbv beta.
        rewrite Hnt, Hns. done.
      * constructor; [|done]. done.
    + rewrite (process_news_rejected cfg source_name news digest Hf).
      cbn [commit].
      destruct (IH digest) as (added & -> & Hfields & Hitems).
      exists added. split_and!; [done| |done].
      rewrite filter_cons_False
        by (unfold accepted_by; rewrite Hf; exact (λ absurd, absurd)).
      done.
Qed.

(** A record on which the filter raises ends the processing of its feed:
    the exception leaves [process_news_list], the digest holds what the
    records before it gave, and no record after it is looked at. *)
Theorem process_news_list_stops_at_failure (cfg : config)
    (digest : NewsDigest) (before after : list (gmap string str))
    (bad : gmap string str) (source_name : str) (e : exn) :
  filter_news cfg bad = Raise e →
  (process_news_list cfg digest before source_name).2 = None →
  process_news_list cfg digest (before ++ bad :: after) source_name
  = ((process_news_list cfg digest before source_name).1, Some e).
Proof.
  intros Hf Hbefore. unfold process_news_list in *.
  rewrite for_each_app.
  destruct (for_each _ before digest) as [digest' [e'|]];
    [discriminate Hbefore|].
  cbn [for_each fst].
  by rewrite (process_news_failed cfg source_name bad digest' e Hf).
Qed.

End PipelineFacts.

Lemma filter_news_accepts_witness :
  complete_record !! "title" = Some (u "Daily news")
  ∧ complete_record !! "summary" = Some (u "A summary of the day")
  ∧ news_manager.filter_news filtering_config complete_record = Ok true.
Proof.
  assert (complete_record !! "title" = Some (u "Daily news")) as Ht
    by (vm_compute; reflexivity).
  assert (complete_record !! "summary" = Some (u "A summary of the day"))
    as Hs by (vm_compute; reflexivity).
  split; [exact Ht|]. split; [exact Hs|].
  destruct (filter_news_accepts filtering_config complete_record _ _ Ht Hs)
    as (accepted & Heq & Hiff).
  rewrite Heq. f_equal. apply Hiff.
  split_and!; try (vm_compute; by repeat constructor).
  - repeat constructor. rewrite <- str_in_spec. by vm_compute.
  - repeat constructor. rewrite <- str_in_spec. by vm_compute.
Defined.

Lemma process_news_list_filters_and_maps_witness :
  Forall has_text [complete_record; complete_record]
  ∧ ∃ added,
      @news_manager.process_news_list ascii_lower filtering_config
        sample_digest [complete_record; complete_record] (u "feed")
      = ({| news_digest.news_items :=
              news_digest.news_items sample_digest ++ added;
            news_digest.today := news_digest.today sample_digest |}, None)
      ∧ (λ item, (news_digest.title item, news_digest.summary item,
                  news_digest.url item, news_digest.publish_time item))
          <$> added
        = (λ news : gmap string str,
             (get news "title" [], get news "summary" [],
              get news "url" [], get news "publish_time" []))
            <$> filter (λ news, accepted_by filtering_config news)
                       [complete_record; complete_record]
      ∧ Forall (λ item,
                  news_digest.source item = u "feed"
                  ∧ news_digest.category item
                    = @news_manager.auto_categorize ascii_lower
                        filtering_config (news_digest.title item)
                        (news_digest.summary item)
                  ∧ news_digest.importance item
                    = @news_manager.determine_importance ascii_lower
                        filtering_config (news_digest.title item)
                        (news_digest.summary item) (u "feed")) added.
Proof.
  assert (Forall has_text [complete_record; complete_record]) as Hall.
  { repeat constructor; eexists; vm_compute; reflexivity. }
  split; [exact Hall|].
  exact (@process_news_list_filters_and_maps ascii_lower filtering_config
           sample_digest [complete_record; complete_record] (u "feed") Hall).
Defined.

Lemma process_news_list_stops_at_failure_witness :
  news_manager.filter_news news_manager.default_config record_without_summary
  = Raise (KeyError "summary")
  ∧ (@news_manager.process_news_list ascii_lower
       news_manager.default_config sample_digest [complete_record]
       (u "feed")).2 = None
  ∧ @news_manager.process_news_list ascii_lower news_manager.default_config
      sample_digest
      ([complete_record] ++ record_without_summary :: [complete_record])
      (u "feed")
    = ((@news_manager.process_news_list ascii_lower
          news_manager.default_config sample_digest [complete_record]
          (u "feed")).1, Some (KeyError "summary")).
Proof.
  assert (news_manager.filter_news news_manager.default_config
            record_without_summary = Raise (KeyError "summary")) as Hf
    by (vm_compute; reflexivity).
  assert ((@news_manager.process_news_list ascii_lower
             news_manager.default_config sample_digest [complete_record]
             (u "feed")).2 = None) as Hbefore
    by (vm_compute; reflexivity).
  split; [exact Hf|]. split; [exact Hbefore|].
  exact (@process_news_list_stops_at_failure ascii_lower
           news_manager.default_config sample_digest [complete_record]
           [complete_record] record_without_summary (u "feed")
           (KeyError "summary") Hf Hbefore).
Defined.

(** * The aggregator of news_crawler.py *)
Section AggregatorFacts.
Context `{StrLower}.
Import news_digest news_crawler.
Variable get_rss_news : str → list (gmap string str).
Variable get_web_news : str → list (str * str) → list (gmap string str).

(** The two loops over the sources are one loop over what they fetch. *)
Lemma aggregate_news_fetched (digest : NewsDigest) :
  aggregate_news get_rss_news get_web_news digest
  = aggregate_list (fetched get_rss_news get_web_news) digest.
Proof.
  unfold aggregate_news, aggregate_list, fetched, rss_sources, web_sources.
  cbn [for_each fmap list_fmap concat fst snd].
  rewrite !app_nil_r, <- !app_assoc.
  rewrite for_each_app.
  destruct (for_each _ (get_rss_news _) digest) as [digest1 [e|]]; [done|].
  cbv beta iota. rewrite for_each_app.
  destruct (for_each _ (get_rss_news _) digest1) as [digest2 [e|]]; [done|].
  cbv beta iota. rewrite for_each_app.
  destruct (for_each _ (get_rss_news _) digest2) as [digest3 [e|]]; [done|].
  cbv beta iota.
  by destruct (for_each _ (get_web_news _ _) digest3) as [digest4 [e|]].
Qed.

Lemma aggregate_record_fields (news : gmap string str) (digest : NewsDigest)
    (t s src : str) :
  news !! "title" = Some t → news !! "summary" = Some s →
  news !! "source" = Some src →
  aggregate_record news digest
  = Ok (add_news digest t s (categorize_news t s) src
          (Some (get news "url" [])) (Some (get news "publish_time" []))
          (Some (determine_importance t s src))).
Proof.
  intros Ht Hs Hsrc. unfold aggregate_record, getitem.
  by rewrite Ht, Hs, Hsrc.
Qed.

Lemma aggregate_record_cases (news : gmap string str) (digest : NewsDigest) :
  (∃ t s src, news !! "title" = Some t ∧ news !! "summary" = Some s
     ∧ news !! "source" = Some src)
  ∨ aggregate_record news digest = Raise (KeyError "title")
  ∨ aggregate_record news digest = Raise (KeyError "summary")
  ∨ aggregate_record news digest = Raise (KeyError "source").
Proof.
  unfold aggregate_record, getitem.
  destruct (news !! "title") as [t|]; [|by right; left].
  destruct (news !! "summary") as [s|]; [|by right; right; left].
  destruct (news !! "source") as [src|]; [|by right; right; right].
  left. by exists t, s, src.
Qed.

(** Whatever the network returns, [aggregate_news] only appends to the
    digest, at most one item per fetched record; every item it adds has
    importance 4 or 5, never less; and the only exceptions that can leave
    it are the [KeyError]s for a record without title, summary or
    source. *)
Theorem aggregate_news_extends_digest (digest : NewsDigest) :
  ∃ added,
    (aggregate_news get_rss_news get_web_news digest).1
    = {| news_items := news_items digest ++ added; today := today digest |}
    ∧ len added <= len (fetched get_rss_news get_web_news)
    ∧ Forall (λ item, importance item = 4 ∨ importance item = 5) added
    ∧ (aggregate_news get_rss_news get_web_news digest).2
      ∈ [None; Some (KeyError "title"); Some (KeyError "summary");
         Some (KeyError "source")].
Proof.
  rewrite aggregate_news_fetched. unfold aggregate_list.
  generalize (fetched get_rss_news get_web_news) as news_list.
  intros news_list. revert digest.
  induction news_list as [|news rest IH]; intros digest.
  - exists []. simpl. split_and!; [apply digest_eta|done|done|left].
  - cbn [for_each].
    destruct (aggregate_record_cases news digest)
      as [(t & s & src & Ht & Hs & Hsrc)|Hraise].
    + rewrite (aggregate_record_fields news digest t s src) by done.
      cbn [commit].
      destruct (IH (add_news digest t s (categorize_news t s) src
                      (Some (get news "url" []))
                      (Some (get news "publish_time" []))
                      (Some (determine_importance t s src))))
        as (added & Hfst & Hlen & Hall & Hexn).
      eexists (_ :: added). split_and!.
      * rewrite Hfst. cbn [add_news news_items today].
        by rewrite <- app_assoc.
      * unfold len in *. cbn [length]. lia.
      * constructor; [|done]. cbn [importance default].
        destruct (crawler_importance_is_5_or_4 t s src); [by right|by left].
      * done.
    + exists []. split_and!.
      * destruct Hraise as [-> | [-> | ->]]; apply digest_eta.
      * unfold len. cbn [length]. lia.
      * done.
      * destruct Hraise as [-> | [-> | ->]]; cbn [commit snd];
          [right; left|right; right; left|right; right; right; left].
Qed.

(** When every fetched record has a title, a summary and a source,
    [aggregate_news] raises nothing and stores one item per record, in
    the order of the sources, nothing being filtered out or merged: the
    item has the fields of its record (the empty string for an address or
    a time the record lacks), and the category and importance that the
    classifier and the scorer give for them. *)
Theorem aggregate_news_one_item_per_record (digest : NewsDigest) :
  Forall has_fields (fetched get_rss_news get_web_news) →
  ∃ added,
    aggregate_news get_rss_news get_web_news digest
    = ({| news_items := news_items digest ++ added; today := today digest |},
       None)
    ∧ (λ item, (title item, summary item, source item, url item,
                publish_time item)) <$> added
      = (λ news : gmap string str,
           (get news "title" [], get news "summary" [], get news "source" [],
            get news "url" [], get news "publish_time" []))
          <$> fetched get_rss_news get_web_news
    ∧ Forall (λ item,
                category item = categorize_news (title item) (summary item)
                ∧ importance item
                  = determine_importance (title item) (summary item)
                      (source item)) added.
Proof.
  rewrite aggregate_news_fetched. unfold aggregate_list.
  generalize (fetched get_rss_news get_web_news) as news_list.
  intros news_list Hall. revert digest.
  induction Hall as [|news rest [[[t Ht] [s Hs]] [src Hsrc]] _ IH];
    intros digest.
  - exists []. simpl. split_and!; [by rewrite <- digest_eta|done|done].
  - cbn [for_each].
    rewrite (aggregate_record_fields news digest t s src) by done.
    cbn [commit].
    destruct (IH (add_news digest t s (categorize_news t s) src
                    (Some (get news "url" []))
                    (Some (get news "publish_time" []))
                    (Some (determine_importance t s src))))
      as (added & -> & Hfields & Hitems).
    eexists (_ :: added). split_and!.
    + cbn [add_news news_items today]. by rewrite <- app_assoc.
    + rewrite !fmap_cons, Hfields. unfold get. cbv beta.
      rewrite Ht, Hs, Hsrc. done.
    + constructor; [|done]. done.
Qed.

(** A fetched record that has a title but no summary, as the page crawler
    builds it when the summary element is not found, ends the aggregation
    with [KeyError]: the digest holds the items of the records before it
    and nothing of what follows. *)
Theorem aggregate_news_stops_without_summary (digest : NewsDigest)
    (before after : list (gmap string str)) (bad : gmap string str) :
  fetched get_rss_news get_web_news = before ++ bad :: after →
  Forall has_fields before →
  is_Some (bad !! "title") → bad !! "summary" = None →
  ∃ added,
    aggregate_news get_rss_news get_web_news digest
    = ({| news_items := news_items digest ++ added; today := today digest |},
       Some (KeyError "summary"))
    ∧ len added = len before.
Proof.
  intros Hfetched Hbefore [t Ht] Hs.
  rewrite aggregate_news_fetched, Hfetched. clear Hfetched.
  unfold aggregate_list. revert digest.
  induction Hbefore as [|news rest [[[t' Ht'] [s' Hs']] [src Hsrc]] _ IH];
    intros digest; cbn [app for_each].
  - exists []. unfold aggregate_record, getitem.
    rewrite Ht, Hs. cbn. by rewrite <- digest_eta.
  - rewrite (aggregate_record_fields news digest t' s' src) by done.
    cbn [commit].
    destruct (IH (add_news digest t' s' (categorize_news t' s') src
                    (Some (get news "url" []))
                    (Some (get news "publish_time" []))
                    (Some (determine_importance t' s' src))))
      as (added & Heq & Hlen).
    rewrite Heq. eexists (_ :: added). split.
    + cbn [add_news news_items today]. by rewrite <- app_assoc.
    + unfold len in *. cbn [length]. lia.
Qed.

End AggregatorFacts.

Lemma aggregate_news_one_item_per_record_witness :
  Forall has_fields (fetched (λ _, [complete_record]) (λ _ _, []))
  ∧ ∃ added,
      @news_crawler.aggregate_news ascii_lower (λ _, [complete_record])
        (λ _ _, []) sample_digest
      = ({| news_digest.news_items :=
              news_digest.news_items sample_digest ++ added;
            news_digest.today := news_digest.today sample_digest |}, None)
      ∧ len added = 3.
Proof.
  assert (Forall has_fields (fetched (λ _, [complete_record]) (λ _ _, [])))
    as Hall.
  { repeat constructor; eexists; vm_compute; reflexivity. }
  split; [exact Hall|].
  destruct (@aggregate_news_one_item_per_record ascii_lower
              (λ _, [complete_record]) (λ _ _, []) sample_digest Hall)
    as (added & Heq & Hfields & _).
  exists added. split; [exact Heq|].
  apply (f_equal length) in Hfields. rewrite !length_fmap in Hfields.
  unfold len. rewrite Hfields. reflexivity.
Defined.

Lemma aggregate_news_stops_without_summary_witness :
  fetched (λ _, [])
          (λ _ _, [complete_record; record_without_summary; complete_record])
  = [complete_record] ++ record_without_summary :: [complete_record]
  ∧ Forall has_fields [complete_record]
  ∧ is_Some (record_without_summary !! "title")
  ∧ record_without_summary !! "summary" = None
  ∧ ∃ added,
      @news_crawler.aggregate_news ascii_lower (λ _, [])
        (λ _ _, [complete_record; record_without_summary; complete_record])
        sample_digest
      = ({| news_digest.news_items :=
              news_digest.news_items sample_digest ++ added;
            news_digest.today := news_digest.today sample_digest |},
         Some (KeyError "summary"))
      ∧ len added = len [complete_record].
Proof.
  assert (fetched (λ _, [])
            (λ _ _, [complete_record; record_without_summary;
                     complete_record])
          = [complete_record] ++ record_without_summary :: [complete_record])
    as Hfetched by reflexivity.
  assert (Forall has_fields [complete_record]) as Hbefore.
  { repeat constructor; eexists; vm_compute; reflexivity. }
  assert (is_Some (record_without_summary !! "title")) as Ht.
  { eexists. vm_compute. reflexivity. }
  assert (record_without_summary !! "summary" = None) as Hs
    by (vm_compute; reflexivity).
  split; [exact Hfetched|]. split; [exact Hbefore|].
  split; [exact Ht|]. split; [exact Hs|].
  exact (@aggregate_news_stops_without_summary ascii_lower (λ _, [])
           (λ _ _, [complete_record; record_without_summary;
                    complete_record])
           sample_digest [complete_record] [complete_record]
           record_without_summary Hfetched Hbefore Ht Hs).
Defined.

(** * The data of the HTML template *)
Section HtmlDataFacts.
Import news_digest news_manager.

Lemma dict_lookup_setitem {V : Type} (d : dict V) (k k' : str) (v : V) :
  dict_lookup (dict_setitem d k v) k'
  = if decide (k = k') then Some v else dict_lookup d k'.
Proof.
  induction d as [|[k0 v0] d IH]; simpl.
  - done.
  - destruct (decide (k0 = k)) as [->|Hne]; simpl.
    + destruct (decide (k = k')); done.
    + destruct (decide (k0 = k')) as [->|Hne'].
      * by destruct (decide (k = k')) as [->|].
      * done.
Qed.

Lemma dict_lookup_keys {V : Type} (d : dict V) (k : str) :
  k ∈ d.*1 ↔ is_Some (dict_lookup d k).
Proof.
  induction d as [|[k0 v0] d IH]; simpl.
  - rewrite elem_of_nil. split; [done|]. by intros [v Hv].
  - rewrite elem_of_cons, IH.
    destruct (decide (k0 = k)) as [->|Hne]; [by split; eauto|].
    split; [by intros [?|?]|by right].
Qed.

Lemma dict_keys_setitem {V : Type} (d : dict V) (k : str) (v : V) :
  (dict_setitem d k v).*1
  = if decide (k ∈ d.*1) then d.*1 else d.*1 ++ [k].
Proof.
  induction d as [|[k0 v0] d IH]; cbn [dict_setitem].
  - rewrite decide_False by apply not_elem_of_nil. done.
  - rewrite fmap_cons. cbn [fst].
    destruct (decide (k0 = k)) as [->|Hne]; rewrite fmap_cons; cbn [fst].
    + rewrite decide_True by left. done.
    + rewrite IH. destruct (decide (k ∈ d.*1)) as [Hin|Hnin].
      * rewrite decide_True by (by right). done.
      * rewrite decide_False; [done|].
        rewrite elem_of_cons. by intros [->|].
Qed.

Lemma dict_values_setitem (d : dict Z) (k : str) (v : Z) :
  foldr Z.add 0 (dict_setitem d k v).*2
  = foldr Z.add 0 d.*2 - default 0 (dict_lookup d k) + v.
Proof.
  induction d as [|[k0 v0] d IH]; cbn [dict_setitem dict_lookup].
  - simpl. lia.
  - destruct (decide (k0 = k)); rewrite !fmap_cons; cbn [foldr snd default];
      [|rewrite IH]; unfold id; lia.
Qed.

Lemma value_inj : Inj (=) (=) value.
Proof.
  intros c1 c2 Heq.
  destruct c1, c2; try reflexivity; vm_compute in Heq; discriminate Heq.
Qed.

Lemma filter_by_label (items : list NewsItem) (c : NewsCategory) :
  filter (λ item, value (category item) = value c) items
  = filter (λ item, category item = c) items.
Proof.
  apply list_filter_iff. intros item. split; [apply value_inj|by intros ->].
Qed.

(** The counters after the first loop, for the items seen so far. *)
Lemma category_stats_lookup (items : list NewsItem) (k : str) :
  dict_lookup
    (fold_left (λ (category_stats : dict Z) item,
                  let category := value (category item) in
                  dict_setitem category_stats category
                    (default 0 (dict_lookup category_stats category) + 1))
               items []) k
  = if decide (0 < len (filter (λ item, value (category item) = k) items))
    then Some (len (filter (λ item, value (category item) = k) items))
    else None.
Proof.
  cbv zeta. induction items as [|item items IH] using rev_ind; [done|].
  rewrite fold_left_app, filter_app. cbn [fold_left].
  rewrite dict_lookup_setitem.
  destruct (decide (value (category item) = k)) as [Hk|Hk].
  - rewrite filter_cons_True, filter_nil by done.
    rewrite Hk, IH, len_app.
    pose proof (len_nonneg (filter (λ item, value (category item) = k) items)).
    change (len [item]) with 1.
    destruct (decide (0 < _ + 1)); [|lia].
    destruct (decide (0 < _)); simpl; f_equal; lia.
  - rewrite filter_cons_False, filter_nil, app_nil_r by done. apply IH.
Qed.

(** The lists after the second loop, for the items seen so far. *)
Lemma categorized_news_lookup (items : list NewsItem) (k : str) :
  dict_lookup
    (fold_left (λ (categorized_news : dict (list html_item)) item,
                  let category := value (category item) in
                  let categorized_news :=
                    match dict_lookup categorized_news category with
                    | None => dict_setitem categorized_news category []
                    | Some _ => categorized_news
                    end in
                  dict_setitem categorized_news category
                    (default [] (dict_lookup categorized_news category)
                     ++ [html_item_of item]))
               items []) k
  = if decide (0 < len (filter (λ item, value (category item) = k) items))
    then Some (html_item_of
                 <$> filter (λ item, value (category item) = k) items)
    else None.
Proof.
  cbv zeta. induction items as [|item items IH] using rev_ind; [done|].
  rewrite fold_left_app, filter_app. cbn [fold_left].
  match goal with
  | |- context [fold_left ?step items []] =>
    set (d := fold_left step items []) in *
  end.
  rewrite dict_lookup_setitem.
  destruct (decide (value (category item) = k)) as [Hk|Hk].
  - rewrite filter_cons_True, filter_nil by done.
    rewrite len_app. change (len [item]) with 1.
    pose proof (len_nonneg (filter (λ item, value (category item) = k) items)).
    destruct (decide (0 < _ + 1)); [|lia]. f_equal.
    rewrite fmap_app. f_equal.
    rewrite Hk. destruct (dict_lookup d k) as [rows|] eqn:Hd.
    + rewrite Hd. destruct (decide (0 < _)); [|done].
      by injection IH as ->.
    + rewrite dict_lookup_setitem, decide_True by done.
      destruct (decide (0 < _)) as [|Hzero]; [done|].
      destruct (filter _ items) as [|x rest]; [done|].
      unfold len in Hzero. simpl in Hzero. lia.
  - rewrite filter_cons_False, filter_nil, app_nil_r by done.
    rewrite <- IH.
    destruct (dict_lookup d (value (category item))); [done|].
    by rewrite dict_lookup_setitem, decide_False.
Qed.

Lemma dict_keys_setitem_NoDup {V : Type} (d : dict V) (k : str) (v : V) :
  NoDup d.*1 → NoDup (dict_setitem d k v).*1.
Proof.
  intros Hd. rewrite dict_keys_setitem.
  destruct (decide (k ∈ d.*1)) as [|Hnin]; [done|].
  apply NoDup_app. split_and!; [done| |apply NoDup_singleton].
  intros k' Hin ->%list_elem_of_singleton. done.
Qed.

Lemma category_stats_keys (items : list NewsItem) :
  NoDup (fold_left (λ (category_stats : dict Z) item,
                      let category := value (category item) in
                      dict_setitem category_stats category
                        (default 0 (dict_lookup category_stats category) + 1))
                   items []).*1.
Proof.
  cbv zeta. induction items as [|item items IH] using rev_ind;
    [apply NoDup_nil_2|].
  rewrite fold_left_app. cbn [fold_left]. by apply dict_keys_setitem_NoDup.
Qed.

Lemma category_stats_sum (items : list NewsItem) :
  foldr Z.add 0
    (fold_left (λ (category_stats : dict Z) item,
                  let category := value (category item) in
                  dict_setitem category_stats category
                    (default 0 (dict_lookup category_stats category) + 1))
               items []).*2
  = len items.
Proof.
  cbv zeta. induction items as [|item items IH] using rev_ind; [done|].
  rewrite fold_left_app, len_app. cbn [fold_left].
  rewrite dict_values_setitem, IH. change (len [item]) with 1. lia.
Qed.

(** Both loops meet the labels in the same order. *)
Lemma categorized_news_keys (items : list NewsItem) :
  (fold_left (λ (categorized_news : dict (list html_item)) item,
                let category := value (category item) in
                let categorized_news :=
                  match dict_lookup categorized_news category with
                  | None => dict_setitem categorized_news category []
                  | Some _ => categorized_news
                  end in
                dict_setitem categorized_news category
                  (default [] (dict_lookup categorized_news category)
                   ++ [html_item_of item]))
             items []).*1
  = (fold_left (λ (category_stats : dict Z) item,
                  let category := value (category item) in
                  dict_setitem category_stats category
                    (default 0 (dict_lookup category_stats category) + 1))
               items []).*1.
Proof.
  cbv zeta. induction items as [|item items IH] using rev_ind; [done|].
  rewrite !fold_left_app. cbn [fold_left].
  match goal with
  | |- context [dict_setitem (fold_left ?step items []) _ (_ + 1)] =>
    set (stats := fold_left step items []) in *
  end.
  match goal with
  | |- context [dict_lookup (fold_left ?step items []) _] =>
    set (news := fold_left step items []) in *
  end.
  rewrite !dict_keys_setitem.
  destruct (dict_lookup news (value (category item))) as [rows|] eqn:Hrows.
  - rewrite IH.
    assert (value (category item) ∈ stats.*1) as Hin.
    { rewrite <- IH. apply dict_lookup_keys. by rewrite Hrows. }
    by rewrite !decide_True.
  - assert (value (category item) ∉ news.*1) as Hnin.
    { rewrite dict_lookup_keys, Hrows. by intros [rows Hsome]. }
    rewrite dict_keys_setitem, (decide_False _ _ Hnin).
    rewrite decide_True by (apply elem_of_app; right; left).
    rewrite IH in *. by rewrite decide_False.
Qed.

Lemma filter_by_label_positive (items : list NewsItem) (k : str) :
  0 < len (filter (λ item, value (category item) = k) items)
  ↔ ∃ c, k = value c ∧ 0 < len (filter (λ item, category item = c) items).
Proof.
  split.
  - intros Hpos.
    destruct (filter (λ item, value (category item) = k) items)
      as [|item rest] eqn:Hfilter; [unfold len in Hpos; simpl in Hpos; lia|].
    assert (item ∈ filter (λ item, value (category item) = k) items) as Hin
      by (rewrite Hfilter; left).
    apply list_elem_of_filter in Hin as [Hk Hin].
    exists (category item). split; [done|].
    rewrite <- filter_by_label, Hk, Hfilter.
    unfold len. simpl. lia.
  - intros (c & -> & Hpos). by rewrite filter_by_label.
Qed.

(** The two dictionaries of [prepare_html_data] group the stored items by
    category: under the label of a category, [category_stats] holds the
    number of items [get_news_by_category] returns for it and
    [categorized_news] holds these items in the same order; a category
    without item has no entry in either. *)
Theorem prepare_html_data_groups_by_category (digest : NewsDigest)
    (now : str) (c : NewsCategory) :
  dict_lookup (html_category_stats (prepare_html_data digest now)) (value c)
  = (if decide (0 < len (get_news_by_category digest c))
     then Some (len (get_news_by_category digest c)) else None)
  ∧ dict_lookup (html_categorized_news (prepare_html_data digest now))
      (value c)
    = (if decide (0 < len (get_news_by_category digest c))
       then Some (html_item_of <$> get_news_by_category digest c) else None).
Proof.
  unfold prepare_html_data, get_news_by_category.
  cbn [html_category_stats html_categorized_news].
  rewrite <- filter_by_label. split.
  - apply category_stats_lookup.
  - apply categorized_news_lookup.
Qed.

(** The figures of [prepare_html_data] agree with one another: the counts
    of [category_stats] add up to [total_news], the number of stored
    items; [categories_count] is the number of categories that have an
    item; [top_news_count] is the smaller of 3 and [total_news]; and the
    two dictionaries have the same keys in the same order, each once, all
    of them labels of categories. *)
Theorem prepare_html_data_figures (digest : NewsDigest) (now : str) :
  html_total_news (prepare_html_data digest now) = len (news_items digest)
  ∧ foldr Z.add 0 (html_category_stats (prepare_html_data digest now)).*2
    = html_total_news (prepare_html_data digest now)
  ∧ html_categories_count (prepare_html_data digest now)
    = len (filter (λ c, 0 < len (get_news_by_category digest c)) members)
  ∧ html_top_news_count (prepare_html_data digest now)
    = Z.min 3 (html_total_news (prepare_html_data digest now))
  ∧ (html_categorized_news (prepare_html_data digest now)).*1
    = (html_category_stats (prepare_html_data digest now)).*1
  ∧ NoDup (html_category_stats (prepare_html_data digest now)).*1
  ∧ Forall (λ k, ∃ c, k = value c)
      (html_category_stats (prepare_html_data digest now)).*1.
Proof.
  assert (∀ k,
    k ∈ (html_category_stats (prepare_html_data digest now)).*1
    ↔ ∃ c, k = value c ∧ 0 < len (get_news_by_category digest c)) as Hkeys.
  { intros k. unfold prepare_html_data, get_news_by_category.
    cbn [html_category_stats].
    rewrite dict_lookup_keys, category_stats_lookup,
      <- filter_by_label_positive.
    destruct (decide (0 < _)); split; done. }
  split_and!.
  - done.
  - apply category_stats_sum.
  - assert ((html_category_stats (prepare_html_data digest now)).*1
            ≡ₚ value <$> filter (λ c, 0 < len (get_news_by_category digest c))
                                members) as Hperm.
    { apply NoDup_Permutation.
      - apply category_stats_keys.
      - apply (@NoDup_fmap_2 _ _ value value_inj), NoDup_filter,
          members_NoDup.
      - intros k. rewrite (Hkeys k), list_elem_of_fmap.
        split; intros (c & -> & Hc); exists c; (split; [done|]).
        + apply list_elem_of_filter. split; [done|apply members_complete].
        + by apply list_elem_of_filter in Hc as [Hc _]. }
    apply Permutation_length in Hperm. rewrite !length_fmap in Hperm.
    unfold prepare_html_data in *.
    cbn [html_categories_count html_category_stats] in *.
    unfold len at 1 2. by rewrite Hperm.
  - unfold prepare_html_data. cbn [html_top_news_count html_total_news].
    unfold get_top_news, slice_to, len. cbn [Z.ltb Z.compare].
    rewrite length_take,
      (Permutation_length (sorted_reverse_perm importance (news_items digest))).
    lia.
  - apply categorized_news_keys.
  - apply category_stats_keys.
  - apply Forall_forall. intros k Hk. apply Hkeys in Hk as (c & -> & _).
    by exists c.
Qed.

End HtmlDataFacts.

(** * The statistics of xueqiu_simple_analyzer.py *)
Section KeywordFacts.
Context `{StrLower}.
Import re xueqiu_simple_analyzer.

Lemma dict_setitem_Forall {V : Type} (P : str * V → Prop) (d : dict V)
    (k : str) (v : V) :
  Forall P d → P (k, v) → Forall P (dict_setitem d k v).
Proof.
  intros Hd Hkv. induction Hd as [|[k0 v0] d HP Hd IH]; cbn [dict_setitem].
  - by constructor.
  - destruct (decide (k0 = k)) as [->|]; by constructor.
Qed.

Lemma dict_lookup_elem {V : Type} (d : dict V) (k : str) (v : V) :
  dict_lookup d k = Some v → (k, v) ∈ d.
Proof.
  induction d as [|[k0 v0] d IH]; cbn [dict_lookup]; [done|].
  destruct (decide (k0 = k)) as [->|].
  - intros [= ->]. left.
  - intros Hd. right. by apply IH.
Qed.

Lemma Counter_snoc (l : list str) (x : str) :
  Counter (l ++ [x])
  = dict_setitem (Counter l) x (default 0 (dict_lookup (Counter l) x) + 1).
Proof. unfold Counter. by rewrite fold_left_app. Qed.

Lemma Counter_Forall (P : str → Prop) (l : list str) :
  Forall P l → Forall (λ entry, P entry.1 ∧ 1 <= entry.2) (Counter l).
Proof.
  induction l as [|x l IH] using rev_ind; intros Hl; [constructor|].
  apply Forall_app in Hl as [Hl Hx]. apply Forall_inv in Hx.
  rewrite Counter_snoc. apply dict_setitem_Forall; [by apply IH|].
  split; [exact Hx|]. cbn [snd].
  destruct (dict_lookup (Counter l) x) as [n|] eqn:Hn; [|simpl; lia].
  apply dict_lookup_elem in Hn.
  apply IH in Hl. rewrite Forall_forall in Hl. apply Hl in Hn as [_ Hn].
  simpl in *. lia.
Qed.

Lemma Counter_sum (l : list str) : foldr Z.add 0 (Counter l).*2 = len l.
Proof.
  induction l as [|x l IH] using rev_ind; [done|].
  rewrite Counter_snoc, dict_values_setitem, IH, len_app.
  change (len [x]) with 1. lia.
Qed.

Lemma Counter_keys (l : list str) : NoDup (Counter l).*1.
Proof.
  induction l as [|x l IH] using rev_ind; [apply NoDup_nil_2|].
  rewrite Counter_snoc. by apply dict_keys_setitem_NoDup.
Qed.

Lemma sum_Permutation (l1 l2 : list Z) :
  l1 ≡ₚ l2 → foldr Z.add 0 l1 = foldr Z.add 0 l2.
Proof. induction 1; simpl; lia. Qed.

Lemma sum_take_le (l : list Z) (n : nat) :
  Forall (λ v, 0 <= v) l → foldr Z.add 0 (take n l) <= foldr Z.add 0 l.
Proof.
  intros Hl. revert n. induction Hl as [|v l Hv Hl IH]; intros [|n]; simpl;
    try lia.
  - assert (0 <= foldr Z.add 0 l); [|lia].
    clear IH. induction Hl; simpl; lia.
  - specialize (IH n). lia.
Qed.

Lemma most_common_take (counter : dict Z) :
  most_common counter 10 = take 10 (sorted snd true counter).
Proof. done. Qed.

Lemma range_digit (c : char) :
  range (ch "0") (ch "9") c = true → ascii_digit c.
Proof.
  unfold range, ascii_digit. change (ch "0") with 48%N.
  change (ch "9") with 57%N. rewrite andb_true_iff, !N.leb_le. done.
Qed.

Lemma stock_code_match (s rest : str) :
  match_prefix stock_code s = Some rest →
  ∃ code, s = code ++ rest ∧ length code = 6%nat ∧ Forall ascii_digit code.
Proof.
  unfold match_prefix, stock_code. cbn [run].
  destruct s as [|c1 [|c2 [|c3 [|c4 [|c5 [|c6 s]]]]]];
    repeat (match goal with
            | |- context [if range ?lo ?hi ?c then _ else _] =>
              let Hc := fresh "Hc" in
              destruct (range lo hi c) eqn:Hc; [apply range_digit in Hc|]
            end);
    try discriminate.
  intros [= <-]. exists [c1; c2; c3; c4; c5; c6].
  split_and!; [done|done|].
  repeat (constructor; [assumption|]). constructor.
Qed.

Lemma findall_from_Forall (P : str → Prop) (r : regex) :
  (∀ s rest, match_prefix r s = Some rest →
     (length rest < length s)%nat → P (take (length s - length rest) s)) →
  ∀ s skip, Forall P (findall_from r skip s).
Proof.
  intros HP s. induction s as [|c s IH]; intros skip; cbn [findall_from];
    [constructor|].
  destruct skip as [|n]; [|apply IH].
  destruct (match_prefix r (c :: s)) as [rest|] eqn:Hm; [|apply IH].
  destruct (length rest <? length (c :: s))%nat eqn:Hlt; [|apply IH].
  constructor; [|apply IH]. apply (HP _ _ Hm). by apply Nat.ltb_lt.
Qed.

Lemma findall_stock_code (s : str) :
  Forall (λ code, length code = 6%nat ∧ Forall ascii_digit code)
         (findall stock_code s).
Proof.
  apply findall_from_Forall. intros s' rest Hm _.
  destruct (stock_code_match s' rest Hm) as (code & -> & Hlen & Hdigits).
  rewrite length_app, Hlen.
  replace (6 + length rest - length rest)%nat with (length code) by lia.
  by rewrite take_app_length.
Qed.

Lemma analyze_sentiment_label (text : str) :
  analyze_sentiment text ∈ sentiment_labels.
Proof.
  unfold analyze_sentiment, sentiment_labels. cbv zeta.
  destruct (_ <? _); [left|].
  destruct (_ <? _); [right; left|right; right; left].
Qed.

Lemma cleaned_texts_total (comments : list comment) :
  Forall has_text_field comments → ∃ texts, cleaned_texts comments = Ok texts.
Proof.
  induction 1 as [|c rest [text Hc] _ [texts IH]]; cbn [cleaned_texts];
    [by eexists|].
  unfold getitem. rewrite Hc. cbn. destruct (truthy text); [|by eexists].
  rewrite IH. by eexists.
Qed.

Lemma sentiments_of_total (comments : list comment) :
  Forall has_text_field comments →
  ∃ sentiments, sentiments_of comments = Ok sentiments
    ∧ len sentiments = len (filter (λ c, has_words c) comments)
    ∧ Forall (λ sentiment, sentiment ∈ sentiment_labels) sentiments.
Proof.
  induction 1 as [|c rest [text Hc] _ (sentiments & IH & Hlen & Hall)];
    cbn [sentiments_of]; [by exists []|].
  unfold getitem. rewrite Hc. cbn [mbind result_bind].
  destruct (truthy text) eqn:Htext.
  - rewrite IH. cbn [mbind result_bind default]. eexists. split; [done|].
    rewrite filter_cons_True
      by (unfold has_words; rewrite Hc; simpl; by rewrite Htext).
    split.
    + unfold len in *. cbn [length]. rewrite !Nat2Z.inj_succ.
      by rewrite Hlen.
    + constructor; [apply analyze_sentiment_label|done].
  - exists sentiments. split; [done|].
    rewrite filter_cons_False
      by (unfold has_words; rewrite Hc; simpl; rewrite Htext;
          exact (λ absurd, absurd)).
    done.
Qed.

Lemma industry_stats_Forall (all_text : str)
    (table : list (str * list str)) (stats : dict Z) :
  Forall (λ entry, ∃ keywords, (entry.1, keywords) ∈ industry_words
                               ∧ 1 <= entry.2 <= len keywords) stats →
  (∀ row, row ∈ table → row ∈ industry_words) →
  Forall (λ entry, ∃ keywords, (entry.1, keywords) ∈ industry_words
                               ∧ 1 <= entry.2 <= len keywords)
    (fold_left (λ (industry_stats : dict Z) '(industry, keywords),
                  let count := count_present keywords all_text in
                  if 0 <? count
                  then dict_setitem industry_stats industry count
                  else industry_stats)
               table stats).
Proof.
  revert stats. induction table as [|[industry keywords] table IH];
    intros stats Hstats Htable; cbn [fold_left]; [done|].
  apply IH; [|intros row Hrow; apply Htable; by right].
  cbv zeta. destruct (0 <? count_present keywords all_text) eqn:Hpos; [|done].
  apply dict_setitem_Forall; [done|].
  exists keywords. split; [apply Htable; left|]. cbn [snd].
  apply Z.ltb_lt in Hpos. split; [lia|].
  unfold count_present, len.
  pose proof (List.filter_length_le (λ word, str_in word all_text) keywords).
  lia.
Qed.

(** On comments that all have a text field [extract_keywords] raises
    nothing, and its figures fit together: [top_stocks] lists at most ten
    distinct codes, each of six ASCII digits and mentioned at least once,
    by falling number of mentions, and these numbers add up to no more than
    [total_stock_mentions]; every industry listed is one of the table, with
    a number of keywords found between 1 and the number of its keywords;
    and [sentiment_distribution] counts each comment with a non-empty text
    once, under one of the three answers of [analyze_sentiment]. *)
Theorem extract_keywords_figures (comments : list comment) :
  Forall has_text_field comments →
  ∃ data, extract_keywords comments = Ok data
    ∧ len (top_stocks data) <= 10
    ∧ StronglySorted (descending snd) (top_stocks data)
    ∧ NoDup (top_stocks data).*1
    ∧ Forall (λ entry, (length entry.1 = 6%nat ∧ Forall ascii_digit entry.1)
                       ∧ 1 <= entry.2) (top_stocks data)
    ∧ foldr Z.add 0 (top_stocks data).*2 <= total_stock_mentions data
    ∧ Forall (λ entry, ∃ keywords, (entry.1, keywords) ∈ industry_words
                                   ∧ 1 <= entry.2 <= len keywords)
             (industry_mentions data)
    ∧ foldr Z.add 0 (sentiment_distribution data).*2
      = len (filter (λ c, has_words c) comments)
    ∧ Forall (λ entry, entry.1 ∈ sentiment_labels ∧ 1 <= entry.2)
             (sentiment_distribution data).
Proof.
  intros Hall.
  destruct (cleaned_texts_total comments Hall) as [texts Htexts].
  destruct (sentiments_of_total comments Hall)
    as (sentiments & Hsentiments & Hlen & Hlabels).
  unfold extract_keywords. rewrite Htexts, Hsentiments.
  cbn [mbind result_bind]. cbv zeta. eexists. split; [reflexivity|].
  cbn [top_stocks industry_mentions sentiment_distribution
       total_stock_mentions].
  set (stock_codes := findall stock_code (join (u " ") texts)).
  rewrite most_common_take.
  pose proof (Counter_Forall _ stock_codes
                (findall_stock_code (join (u " ") texts))) as Hcodes.
  pose proof (sorted_reverse_perm snd (Counter stock_codes)) as Hperm.
  split_and!.
  - unfold len. rewrite length_take. lia.
  - apply (StronglySorted_app_1_l _ _
             (drop 10 (sorted snd true (Counter stock_codes)))).
    rewrite take_drop. apply sorted_reverse_descending.
  - apply (sublist_NoDup _ (sorted snd true (Counter stock_codes)).*1).
    + rewrite Hperm. apply Counter_keys.
    + apply fmap_sublist, sublist_take.
  - apply Forall_take. by rewrite Hperm.
  - rewrite fmap_take.
    etrans; [apply sum_take_le|].
    + apply Forall_fmap. rewrite Hperm.
      eapply Forall_impl; [exact Hcodes|]. intros entry [_ Hentry].
      simpl. lia.
    + rewrite (sum_Permutation _ (Counter stock_codes).*2)
        by (by rewrite Hperm).
      by rewrite Counter_sum.
  - by apply industry_stats_Forall.
  - by rewrite Counter_sum.
  - exact (Counter_Forall (λ sentiment, sentiment ∈ sentiment_labels)
             sentiments Hlabels).
Qed.

(** A comment without a text field makes [extract_keywords] raise
    [KeyError]: no statistics are returned for the other comments. *)
Theorem extract_keywords_needs_text (comments : list comment) :
  Exists (λ c, c !! "text" = None) comments →
  extract_keywords comments = Raise (KeyError "text").
Proof.
  intros Hmissing. unfold comment in *.
  assert (cleaned_texts comments = Raise (KeyError "text")) as Hraise.
  { induction Hmissing as [c rest Hc|c rest _ IH]; cbn [cleaned_texts];
      unfold getitem.
    - by rewrite Hc.
    - destruct (c !! "text") as [text|]; [|done]. cbn [mbind result_bind].
      destruct (truthy text); [|done]. by rewrite IH. }
  unfold extract_keywords. by rewrite Hraise.
Qed.

End KeywordFacts.

Lemma extract_keywords_figures_witness :
  Forall has_text_field sample_comments
  ∧ ∃ data,
      @xueqiu_simple_analyzer.extract_keywords ascii_lower sample_comments
      = Ok data
      ∧ xueqiu_simple_analyzer.top_stocks data
        = [(u "600519", 2); (u "000001", 1)]
      ∧ xueqiu_simple_analyzer.total_stock_mentions data = 3
      ∧ xueqiu_simple_analyzer.sentiment_distribution data
        = [(u "中性", 2)].
Proof.
  assert (Forall has_text_field sample_comments) as Hall.
  { repeat constructor; eexists; vm_compute; reflexivity. }
  split; [exact Hall|].
  destruct (@extract_keywords_figures ascii_lower sample_comments Hall)
    as (data & Heq & _).
  exists data. split; [exact Heq|].
  assert (Ok data
          = @xueqiu_simple_analyzer.extract_keywords ascii_lower
              sample_comments) as Hdata by (symmetry; exact Heq).
  vm_compute in Hdata. injection Hdata as ->.
  split_and!; vm_compute; reflexivity.
Defined.

Lemma extract_keywords_needs_text_witness :
  Exists (λ c : gmap string (option str), c !! "text" = None)
         [ {[ "text" := Some (u "600519") ]}; {[ "user" := Some (u "a") ]} ]
  ∧ @xueqiu_simple_analyzer.extract_keywords ascii_lower
      [ {[ "text" := Some (u "600519") ]}; {[ "user" := Some (u "a") ]} ]
    = Raise (KeyError "text").
Proof.
  assert (Exists (λ c : gmap string (option str), c !! "text" = None)
            [ {[ "text" := Some (u "600519") ]};
              {[ "user" := Some (u "a") ]} ]) as Hmissing.
  { right. left. vm_compute. reflexivity. }
  split; [exact Hmissing|].
  exact (@extract_keywords_needs_text ascii_lower _ Hmissing).
Defined.

(** * The analysis of xueqiu_comment_analyzer.py *)
Section AnalysisFacts.
Import xueqiu_comment_analyzer.
Variable Generation_call : str → ai_outcome.

(** The loop keeps the cleaned texts of more than five characters. *)
Lemma comment_texts_of_valid (comments : list (gmap string (option str))) :
  Forall has_text_field comments →
  comment_texts_of comments = Ok (valid_texts comments).
Proof.
  induction 1 as [|c rest [text Hc] _ IH]; [done|].
  cbn [comment_texts_of]. unfold getitem. rewrite Hc, IH.
  cbn [mbind result_bind]. unfold valid_texts. rewrite fmap_cons, Hc.
  cbn [default from_option id].
  pose proof (len_nonneg (clean_text text)) as Hnonneg.
  destruct (decide (5 < len (clean_text text))) as [Hlong|Hshort].
  - rewrite filter_cons_True by done.
    apply Z.ltb_lt in Hlong as Hlong'. rewrite Hlong'.
    destruct (clean_text text); [unfold len in Hlong; simpl in Hlong; lia|].
    done.
  - rewrite filter_cons_False by done.
    apply Z.ltb_nlt in Hshort. rewrite Hshort. by rewrite andb_false_r.
Qed.

Lemma valid_texts_length (comments : list (gmap string (option str))) :
  len (valid_texts comments) <= len comments.
Proof.
  unfold valid_texts, len. apply Nat2Z.inj_le.
  etrans; [apply length_filter|]. by rewrite length_fmap.
Qed.

(** When every comment has a text field [analyze_comments_with_ai] raises
    nothing and answers in one of three ways.  Without comments it reports
    that there is no data.  With comments none of whose cleaned texts is
    longer than five characters it reports that nothing is valid, whatever
    the service would say.  Otherwise the service is asked about the
    first fifty valid texts only, one per line; its answer is returned with
    the number of comments and the number of all valid texts, which is at
    least 1 and at most the number of comments, and its refusal or failure
    is returned as an error. *)
Theorem analyze_comments_with_ai_reports
    (comments : list (gmap string (option str))) :
  Forall has_text_field comments →
  ∃ report,
    analyze_comments_with_ai Generation_call comments = Ok report
    ∧ (comments = [] → report = AnalysisError (u "没有评论数据"))
    ∧ (comments ≠ [] → valid_texts comments = [] →
       report = AnalysisError (u "没有有效的评论内容"))
    ∧ (valid_texts comments ≠ [] →
       1 <= len (valid_texts comments) <= len comments
       ∧ report
         = match Generation_call
                   (prompt (join nl (take 50 (valid_texts comments)))) with
           | Answered text =>
             Analysis text (len comments) (len (valid_texts comments))
           | Refused message => AnalysisError (u "AI分析失败: " ++ message)
           | Failed description =>
             AnalysisError (u "AI分析异常: " ++ description)
           end).
Proof.
  intros Hall. destruct comments as [|c rest].
  - eexists. split; [done|]. split_and!; done.
  - unfold analyze_comments_with_ai.
    rewrite (comment_texts_of_valid _ Hall). cbn [mbind result_bind].
    pose proof (valid_texts_length (c :: rest)) as Hle.
    destruct (valid_texts (c :: rest)) as [|text texts] eqn:Hvalid.
    + eexists. split; [done|]. split_and!; done.
    + unfold slice_to. cbn [Z.ltb Z.compare].
      change (Z.to_nat 50) with 50%nat.
      destruct (Generation_call _); eexists; (split; [reflexivity|]);
        (split_and!; [done|done|]); intros _;
        (split; [|done]); (split; [|done]); unfold len; simpl; lia.
Qed.

(** A comment without a text field makes [analyze_comments_with_ai] raise
    [KeyError] instead of returning an error report: the texts are
    collected before the [try] block. *)
Theorem analyze_comments_with_ai_key_error
    (comments : list (gmap string (option str))) :
  Exists (λ c, c !! "text" = None) comments →
  analyze_comments_with_ai Generation_call comments = Raise (KeyError "text").
Proof.
  intros Hmissing.
  assert (comment_texts_of comments = Raise (KeyError "text")) as Hraise.
  { induction Hmissing as [c rest Hc|c rest _ IH]; cbn [comment_texts_of];
      unfold getitem.
    - by rewrite Hc.
    - destruct (c !! "text") as [text|]; [|done]. cbn [mbind result_bind].
      by rewrite IH. }
  unfold analyze_comments_with_ai. rewrite Hraise.
  by destruct Hmissing.
Qed.

End AnalysisFacts.

Lemma analyze_comments_with_ai_reports_witness :
  Forall has_text_field sample_comments
  ∧ xueqiu_comment_analyzer.analyze_comments_with_ai
      (λ _, xueqiu_comment_analyzer.Answered (u "ok")) sample_comments
    = Ok (xueqiu_comment_analyzer.Analysis (u "ok") 4 2).
Proof.
  assert (Forall has_text_field sample_comments) as Hall.
  { repeat constructor; eexists; vm_compute; reflexivity. }
  split; [exact Hall|].
  destruct (analyze_comments_with_ai_reports
              (λ _, xueqiu_comment_analyzer.Answered (u "ok"))
              sample_comments Hall) as (report & -> & _ & _ & Hreport).
  f_equal.
  assert (valid_texts sample_comments ≠ []) as Hvalid
    by (vm_compute; discriminate).
  destruct (Hreport Hvalid) as [_ ->]. vm_compute. reflexivity.
Defined.

Lemma analyze_comments_with_ai_key_error_witness :
  Exists (λ c : gmap string (option str), c !! "text" = None)
         [ {[ "text" := Some (u "600519") ]}; {[ "user" := Some (u "a") ]} ]
  ∧ xueqiu_comment_analyzer.analyze_comments_with_ai
      (λ _, xueqiu_comment_analyzer.Answered (u "ok"))
      [ {[ "text" := Some (u "600519") ]}; {[ "user" := Some (u "a") ]} ]
    = Raise (KeyError "text").
Proof.
  assert (Exists (λ c : gmap string (option str), c !! "text" = None)
            [ {[ "text" := Some (u "600519") ]};
              {[ "user" := Some (u "a") ]} ]) as Hmissing.
  { right. left. vm_compute. reflexivity. }
  split; [exact Hmissing|].
  exact (analyze_comments_with_ai_key_error _ _ Hmissing).
Defined.

(** * The export of news_digest.py *)
Section ExportFacts.
Import news_digest news_digest_export.

Lemma item_dict_inj : Inj (=) (=) item_dict.
Proof.
  intros [t1 s1 c1 src1 u1 p1 i1] [t2 s2 c2 src2 u2 p2 i2] Heq.
  unfold item_dict in Heq. cbn in Heq.
  injection Heq as -> -> Hc -> -> -> ->.
  by rewrite (value_inj _ _ Hc).
Qed.

(** The exported data determine the digest: two digests whose export is the
    same have the same date and the same items in the same order, field by
    field, so the export loses nothing of what a digest holds. *)
Theorem export_json_lossless (d1 d2 : NewsDigest) :
  export_json d1 = export_json d2 → d1 = d2.
Proof.
  destruct d1 as [items1 today1], d2 as [items2 today2].
  unfold export_json. cbn [news_items today]. intros Heq.
  injection Heq as -> _ Hitems.
  by rewrite (list_fmap_eq_inj item_dict item_dict_inj _ _ Hitems).
Qed.

Lemma export_json_lossless_witness :
  export_json (add_news (init (u "2024年01月01日")) (u "Daily news")
                 (u "A summary of the day") ECONOMY (u "desk") None None
                 (Some 4))
  = export_json {| news_items :=
                     [ {| title := u "Daily news";
                          summary := u "A summary of the day";
                          category := ECONOMY; source := u "desk";
                          url := []; publish_time := [];
                          importance := 4 |} ];
                   today := u "2024年01月01日" |}
  ∧ add_news (init (u "2024年01月01日")) (u "Daily news")
      (u "A summary of the day") ECONOMY (u "desk") None None (Some 4)
    = {| news_items :=
           [ {| title := u "Daily news"; summary := u "A summary of the day";
                category := ECONOMY; source := u "desk";
                url := []; publish_time := [];
                importance := 4 |} ];
         today := u "2024年01月01日" |}.
Proof.
  assert (export_json
            (add_news (init (u "2024年01月01日")) (u "Daily news")
               (u "A summary of the day") ECONOMY (u "desk") None None
               (Some 4))
          = export_json
              {| news_items :=
                   [ {| title := u "Daily news";
                        summary := u "A summary of the day";
                        category := ECONOMY; source := u "desk";
                        url := []; publish_time := [];
                        importance := 4 |} ];
                 today := u "2024年01月01日" |}) as Heq by reflexivity.
  split; [exact Heq|]. exact (export_json_lossless _ _ Heq).
Defined.

End ExportFacts.

(** * A blind spot of the sentiment count *)
Section SentimentBlindSpot.
Context `{StrLower}.
Import xueqiu_simple_analyzer.

Lemma count_present_at_least (words : list str) (k t : str) :
  k ∈ words → str_in k t = true → 1 <= count_present words t.
Proof.
  unfold count_present. intros Hin Hk.
  induction Hin as [k words|k w words Hin IH]; cbn [List.filter].
  - rewrite Hk. unfold len. cbn [length]. lia.
  - specialize (IH Hk).
    destruct (str_in w t); [|done]. unfold len in *. cbn [length]. lia.
Qed.

Lemma count_present_only (words : list str) (k t : str) :
  NoDup words →
  (∀ w, w ∈ words → str_in w t = true → w = k) →
  count_present words t <= (if str_in k t then 1 else 0).
Proof.
  unfold count_present. intros Hwords.
  induction Hwords as [|w words Hw Hwords IH]; intros Honly;
    cbn [List.filter].
  - unfold len. simpl. by destruct (str_in k t).
  - destruct (str_in w t) eqn:Hwt.
    + assert (w = k) as -> by (apply Honly; [left|done]).
      rewrite Hwt.
      assert (List.filter (λ word, str_in word t) words = []) as ->.
      { clear IH. induction words as [|w' words IH']; [done|].
        cbn [List.filter]. destruct (str_in w' t) eqn:Hw't.
        - exfalso. apply Hw.
          assert (w' = k) as -> by (apply Honly; [right; left|done]). left.
        - apply IH'.
          + intros Hin. apply Hw. by right.
          + by apply NoDup_cons in Hwords as [_ Hwords].
          + intros w'' Hin Hw''. apply Honly; [|done].
            apply elem_of_cons in Hin as [->|Hin]; [left|right; by right]. }
      unfold len. simpl. lia.
    + apply IH. intros w' Hin Hw'. apply Honly; [by right|done].
Qed.

Lemma negative_words_NoDup : NoDup negative_words.
Proof. apply (bool_decide_unpack _). by vm_compute. Qed.

(** The negative keyword 不好 can never make a text pessimistic by itself:
    it holds the positive keyword 好, so a text in which it is the only
    negative keyword found is judged optimistic or neutral, never
    pessimistic. *)
Theorem analyze_sentiment_not_good_is_not_pessimistic (text : str) :
  (∀ word, word ∈ negative_words → occurs_in word (lower text) →
     word = u "不好") →
  analyze_sentiment text = u "乐观" ∨ analyze_sentiment text = u "中性".
Proof.
  intros Honly. unfold analyze_sentiment. cbv zeta.
  assert (count_present negative_words (lower text)
          <= (if str_in (u "不好") (lower text) then 1 else 0)) as Hneg.
  { apply count_present_only; [apply negative_words_NoDup|].
    intros w Hin Hw. apply Honly; [done|]. by apply str_in_spec. }
  assert (str_in (u "不好") (lower text) = true →
          1 <= count_present positive_words (lower text)) as Hpos.
  { intros Hbad. apply (count_present_at_least _ (u "好")).
    - unfold positive_words. simpl. right. left.
    - apply str_in_spec. apply str_in_spec in Hbad as (pre & post & ->).
      exists (pre ++ u "不"), post.
      rewrite <- !app_assoc. f_equal. }
  destruct (_ <? _) eqn:Hfirst; [by left|].
  destruct (count_present positive_words _ <? _) eqn:Hsecond; [|by right].
  exfalso. apply Z.ltb_lt in Hsecond.
  assert (0 <= count_present positive_words (lower text))
    by apply len_nonneg.
  destruct (str_in (u "不好") (lower text)); [|lia].
  specialize (Hpos eq_refl). lia.
Qed.

End SentimentBlindSpot.

Lemma analyze_sentiment_not_good_is_not_pessimistic_witness :
  (∀ word, word ∈ xueqiu_simple_analyzer.negative_words →
     occurs_in word (@lower ascii_lower (u "这个不好")) → word = u "不好")
  ∧ @xueqiu_simple_analyzer.analyze_sentiment ascii_lower (u "这个不好")
    = u "中性".
Proof.
  assert (∀ word, word ∈ xueqiu_simple_analyzer.negative_words →
            occurs_in word (@lower ascii_lower (u "这个不好")) →
            word = u "不好") as Honly.
  { intros word Hin Hocc. apply str_in_spec in Hocc.
    unfold xueqiu_simple_analyzer.negative_words in Hin. simpl in Hin.
    repeat (apply elem_of_cons in Hin as [->|Hin];
            [first [reflexivity|vm_compute in Hocc; discriminate Hocc]|]).
    by apply elem_of_nil in Hin. }
  split; [exact Honly|].
  destruct (@analyze_sentiment_not_good_is_not_pessimistic ascii_lower
              (u "这个不好") Honly) as [Hopt|Hneutral].
  - vm_compute in Hopt. discriminate Hopt.
  - exact Hneutral.
Defined.
